(** * SimpleOpenAIBot: the chunker, the history store and the send handler

    A shallow embedding of [main.py]: the token-budgeted chunker
    ([chunk_text]), the history store ([load_or_init_history],
    [save_history], the three [add_*_message] helpers), the completion call
    ([send_chat_completion]) and the branches of the event loop of [main]
    that touch the conversation.

    Python [str] values are modelled by [string]; a character stands for a
    code point below 256.  The libraries the program calls (tiktoken, json,
    os.path, the completion endpoint) are parameters of the model: the
    tokenizer and the JSON codec are total functions, the endpoint either
    answers or raises.  The disk is a finite map from paths to contents;
    reading a file raises when the path is missing or the bytes are not
    UTF-8, writing the history file always succeeds.  The calls on the
    window and on the endpoint are recorded, in order, in a trace.

    The tokenizer of the model always returns; tiktoken itself raises on a
    text that spells one of its special tokens, so what is stated about a
    send is stated for a send whose ingestion step has returned, or for one
    that a failed read has ended.  The [-SAVE_OUTPUT-] branch, which exports
    the history, is [on_save_output]; it is kept apart from [handle] and
    [run], which cover the four events that touch the conversation. *)

From Stdlib Require Import ZArith Lia Ascii String List.
From stdpp Require Import base strings list gmap pretty.

Local Open Scope string_scope.
Local Open Scope list_scope.

#[local] Arguments String.append !s1 s2 : simpl nomatch.

(** ** Python string primitives *)

Module PyStr.

(** The line feed, ['\n'] in the source. *)
Definition NL : ascii := ascii_of_nat 10.

(** The one-character string ["\n"]. *)
Definition nl : string := String NL "".

(** [str.isspace] on one character, for the code points below 256:
    U+0009..U+000D, U+001C..U+001F, U+0020, U+0085 and U+00A0. *)
Definition isspace (c : ascii) : bool :=
  let n := nat_of_ascii c in
  (((9 <=? n) && (n <=? 13)) || ((28 <=? n) && (n <=? 32))
   || (n =? 133) || (n =? 160))%nat.

(** Truth value of a string in a condition: non-empty. *)
Definition truthy (s : string) : bool :=
  match s with
  | EmptyString => false
  | String _ _ => true
  end.

(** Every character is whitespace (true of the empty string as well). *)
Fixpoint all_space (s : string) : bool :=
  match s with
  | EmptyString => true
  | String c s' => isspace c && all_space s'
  end.

Fixpoint lstrip (s : string) : string :=
  match s with
  | EmptyString => EmptyString
  | String c s' => if isspace c then lstrip s' else s
  end.

Fixpoint rstrip (s : string) : string :=
  match s with
  | EmptyString => EmptyString
  | String c s' =>
      match rstrip s' with
      | EmptyString => if isspace c then EmptyString else String c EmptyString
      | r => String c r
      end
  end.

(** [s.strip()]: whitespace removed at both ends, the interior kept. *)
Definition strip (s : string) : string := lstrip (rstrip s).

(** [s.split(sep)] for a one-character separator: never the empty list. *)
Fixpoint split (sep : ascii) (s : string) : list string :=
  match s with
  | EmptyString => [EmptyString]
  | String c s' =>
      if Ascii.eqb c sep then EmptyString :: split sep s'
      else match split sep s' with
           | h :: t => String c h :: t
           | [] => [String c EmptyString]
           end
  end.

(** [sep.join(l)]. *)
Fixpoint join (sep : string) (l : list string) : string :=
  match l with
  | [] => EmptyString
  | [x] => x
  | x :: xs => x +:+ sep +:+ join sep xs
  end.

(** [c in s] for a character. *)
Fixpoint contains (c : ascii) (s : string) : bool :=
  match s with
  | EmptyString => false
  | String d s' => Ascii.eqb d c || contains c s'
  end.

End PyStr.

(** ** Configuration constants *)

Definition MODEL_NAME : string := "o1-mini-2024-09-12".
Definition CHUNK_SIZE : Z := 3000.
Definition HISTORY_JSON_PATH : string := "conversation_history.json".

(** ** Tokenizer adapter and chunker *)

Section Chunker.

(** [tiktoken.encoding_for_model(model_name).encode(text)]: the token ids
    of [text] under the encoding of the model. *)
Variable tiktoken_encode : string -> string -> list Z.

Definition count_tokens (text : string) (model_name : string) : nat :=
  length (tiktoken_encode model_name text).

(** One iteration of the [for paragraph in paragraphs] loop, on the pair
    [(chunks, current_chunk)]. *)
Definition chunk_step (max_tokens : Z) (st : list string * string)
    (paragraph : string) : list string * string :=
  let '(chunks, current_chunk) := st in
  let candidate := PyStr.strip (current_chunk +:+ PyStr.nl +:+ paragraph) in
  if (Z.of_nat (count_tokens candidate MODEL_NAME) >? max_tokens)%Z
     && PyStr.truthy current_chunk
  then (chunks ++ [current_chunk], paragraph)
  else if negb (PyStr.truthy current_chunk)
       then (chunks, paragraph)
       else (chunks, current_chunk +:+ PyStr.nl +:+ paragraph).

Definition chunk_loop (max_tokens : Z) (paragraphs : list string)
    (st : list string * string) : list string * string :=
  fold_left (chunk_step max_tokens) paragraphs st.

Definition chunk_text (text : string) (max_tokens : Z) : list string :=
  let paragraphs := PyStr.split PyStr.NL text in
  let '(chunks, current_chunk) :=
    chunk_loop max_tokens paragraphs ([], EmptyString) in
  if PyStr.truthy (PyStr.strip current_chunk)
  then chunks ++ [current_chunk]
  else chunks.

(** What [chunk_text] returns, from the pair the loop ends with. *)
Definition emitted (st : list string * string) : list string :=
  if PyStr.truthy (PyStr.strip (snd st)) then fst st ++ [snd st]
  else fst st.

(** [count_tokens(s) <= max_tokens]. *)
Definition within_budget (max_tokens : Z) (s : string) : Prop :=
  (Z.of_nat (count_tokens s MODEL_NAME) <= max_tokens)%Z.

(** [count_tokens(s.strip()) <= max_tokens]: the quantity the loop
    compares with the budget. *)
Definition fits_trimmed (max_tokens : Z) (s : string) : Prop :=
  within_budget max_tokens (PyStr.strip s).

End Chunker.

(** ** JSON values and messages *)

(** What [json.load] can return (numbers are kept to the integers). *)
#[local] Unset Elimination Schemes.
Inductive json : Type :=
  | JNull
  | JBool (b : bool)
  | JNumber (z : Z)
  | JString (s : string)
  | JList (l : list json)
  | JDict (d : list (string * json)).
#[local] Set Elimination Schemes.

(** A message is the dict [{"role": ..., "content": ...}]. *)
Record message : Type := Message { role : string; content : string }.

Definition json_of_message (m : message) : json :=
  JDict [("role", JString (role m)); ("content", JString (content m))].

Definition json_of_history (h : list message) : json :=
  JList (map json_of_message h).

Fixpoint dict_get (k : string) (d : list (string * json)) : option json :=
  match d with
  | [] => None
  | (k', v) :: d' => if String.eqb k k' then Some v else dict_get k d'
  end.

(** The loaded values the typed model of the loop covers: lists of dicts
    with exactly the two string fields. *)
Definition message_of_json (v : json) : option message :=
  match v with
  | JDict d =>
      match dict_get "role" d, dict_get "content" d with
      | Some (JString r), Some (JString c) =>
          if (length d =? 2)%nat then Some (Message r c) else None
      | _, _ => None
      end
  | _ => None
  end.

Definition history_of_json (v : json) : option (list message) :=
  match v with
  | JList l => mapM message_of_json l
  | _ => None
  end.

(** ** Exceptions, files and effects *)

Inductive exn : Type :=
  | FileNotFoundError (path : string)
  | UnicodeDecodeError (path : string).

Inductive result (A : Type) : Type :=
  | Return (a : A)
  | Raise (e : exn).
Arguments Return {A} a.
Arguments Raise {A} e.

(** What a path holds: text that decodes as UTF-8, or bytes that do not. *)
Inductive file_data : Type :=
  | Utf8 (text : string)
  | NotUtf8.

(** The carriage return, ['\r']. *)
Definition CR : ascii := ascii_of_nat 13.

(** What reading in text mode does to line ends: ["\r\n"] and a lone
    ["\r"] both become ["\n"]. *)
Fixpoint universal_newlines (s : string) : string :=
  match s with
  | EmptyString => EmptyString
  | String c s' =>
      if Ascii.eqb c CR
      then String PyStr.NL
             match s' with
             | String d s'' =>
                 if Ascii.eqb d PyStr.NL then universal_newlines s''
                 else universal_newlines s'
             | EmptyString => EmptyString
             end
      else String c (universal_newlines s')
  end.

(** [open(path, "r", encoding="utf-8")] followed by [f.read()]. *)
Definition read_text (disk : gmap string file_data) (path : string)
    : result string :=
  match disk !! path with
  | None => Raise (FileNotFoundError path)
  | Some NotUtf8 => Raise (UnicodeDecodeError path)
  | Some (Utf8 text) => Return (universal_newlines text)
  end.

(** The outcome of [json.load] on a text. *)
Inductive decoded : Type :=
  | Decoded (v : json)
  | JSONDecodeError.

(** The request built by [openai.ChatCompletion.create]. *)
Record request : Type :=
  Request { model : string; messages : list message; temperature : Z }.

(** What the body of [send_chat_completion] does: return the content of the
    first choice, or raise an exception whose [str] is [err]. *)
Inductive completion : Type :=
  | Answer (text : string)
  | Failure (err : string).

(** Calls on the outside world, in the order the program makes them. *)
Inductive effect : Type :=
  | Popup (text : string)
  | WindowUpdate (key : string) (value : string)
  | CompletionCall (req : request).

(** The file can be read as text. *)
Definition readable (disk : gmap string file_data) (path : string) : Prop :=
  exists text : string, disk !! path = Some (Utf8 text).

(** ** History store *)

Section Store.

Variable json_load : string -> decoded.
Variable json_dump : json -> string.

Definition load_or_init_history (disk : gmap string file_data)
    (filepath : string) : result json :=
  match disk !! filepath with
  | Some data =>
      match data with
      | Utf8 text =>
          match json_load text with
          | Decoded v => Return v
          | JSONDecodeError => Return (JList [])
          end
      | NotUtf8 => Raise (UnicodeDecodeError filepath)
      end
  | None => Return (JList [])
  end.

Definition save_history (disk : gmap string file_data) (filepath : string)
    (history : list message) : gmap string file_data :=
  <[filepath := Utf8 (json_dump (json_of_history history))]> disk.

(** The file holds text that decodes to a list of role/content records. *)
Definition parses_as_history (data : file_data) : Prop :=
  exists (text : string) (v : json) (h : list message),
    data = Utf8 text /\ json_load text = Decoded v
    /\ history_of_json v = Some h.

End Store.

Definition add_developer_message (history : list message) (content : string)
    : list message :=
  history ++ [Message "developer" content].

Definition add_user_message (history : list message) (content : string)
    : list message :=
  history ++ [Message "user" content].

Definition add_assistant_message (history : list message) (content : string)
    : list message :=
  history ++ [Message "assistant" content].

Definition send_chat_completion (endpoint : request -> completion)
    (history : list message) : completion :=
  endpoint (Request MODEL_NAME history 1).

(** ** The event loop of [main] *)

Definition initial_instructions : string :=
  "You are a helpful code assistant that can review, debug, and discuss code. "
  +:+ "You have a limited context window, so keep your answers concise. "
  +:+ "Your role is 'developer', which is like a system role for some models.".

Record state : Type := State {
  conversation_history : list message;
  loaded_files : list string;
  disk : gmap string file_data;
  trace : list effect
}.

(** How one pass through the loop body ends: back to [window.read()], or
    with an exception nothing catches, which ends the program. *)
Inductive outcome : Type :=
  | Continue (st : state)
  | Uncaught (e : exn) (st : state).

Definition state_of (o : outcome) : state :=
  match o with
  | Continue st => st
  | Uncaught _ st => st
  end.

(** What [sg.popup_get_file] returned for [-SELECT_FILES-]. *)
Inductive picked : Type :=
  | Cancelled
  | PickedStr (s : string)
  | PickedList (l : list string).

Inductive event : Type :=
  | EvSelectFiles (p : picked)
  | EvClearFiles
  | EvClearConvo
  | EvSend (prompt : string) (endpoint : request -> completion).

(** Truth value of a list in a condition: non-empty. *)
Definition nonempty {A : Type} (l : list A) : bool :=
  match l with
  | [] => false
  | _ :: _ => true
  end.

(** The requests that reached the completion endpoint. *)
Fixpoint calls (tr : list effect) : list request :=
  match tr with
  | [] => []
  | CompletionCall req :: tr' => req :: calls tr'
  | _ :: tr' => calls tr'
  end.

Section Loop.

Variable tiktoken_encode : string -> string -> list Z.
Variable json_load : string -> decoded.
Variable json_dump : json -> string.
(** [os.path.basename]. *)
Variable basename : string -> string.

(** [f"[FILE: {os.path.basename(fp)}, PART {idx}]\n{chunk}"]. *)
Definition chunk_msg (fp : string) (idx : nat) (chunk : string) : string :=
  "[FILE: " +:+ basename fp +:+ ", PART " +:+ pretty idx +:+ "]"
  +:+ PyStr.nl +:+ chunk.

(** The inner loop [for idx, chunk in enumerate(code_chunks, start=idx)]. *)
Fixpoint add_chunks (fp : string) (idx : nat) (code_chunks : list string)
    (history : list message) : list message :=
  match code_chunks with
  | [] => history
  | chunk :: rest =>
      add_chunks fp (S idx) rest
        (add_user_message history (chunk_msg fp idx chunk))
  end.

(** The loop [for fp in loaded_files]; a failed read leaves the loop with
    the history as appended so far. *)
Fixpoint ingest_files (dsk : gmap string file_data) (fps : list string)
    (history : list message) : result (list message) * list message :=
  match fps with
  | [] => (Return history, history)
  | fp :: rest =>
      match read_text dsk fp with
      | Raise e => (Raise e, history)
      | Return code_content =>
          let code_chunks :=
            chunk_text tiktoken_encode code_content CHUNK_SIZE in
          ingest_files dsk rest (add_chunks fp 1 code_chunks history)
      end
  end.

Definition on_select_files (st : state) (p : picked) : outcome :=
  let file_paths :=
    match p with
    | Cancelled => []
    | PickedStr s =>
        if PyStr.truthy s then PyStr.split ";"%char s else []
    | PickedList l => l
    end in
  if negb (nonempty file_paths) then Continue st
  else
      let keep fp :=
        PyStr.truthy fp && bool_decide (is_Some (disk st !! fp)) in
      let loaded :=
        loaded_files st ++ filter (fun fp => keep fp = true)
                                  (map PyStr.strip file_paths) in
      Continue (State (conversation_history st) loaded (disk st)
        (trace st ++ [WindowUpdate "-FILES-" (PyStr.join PyStr.nl loaded)])).

Definition on_clear_files (st : state) : outcome :=
  Continue (State (conversation_history st) [] (disk st)
    (trace st ++ [WindowUpdate "-FILES-" ""])).

Definition on_clear_convo (st : state) : outcome :=
  Continue (State [] (loaded_files st)
    (save_history json_dump (disk st) HISTORY_JSON_PATH [])
    (trace st ++
       [WindowUpdate "-RESPONSE-" "";
        Popup "Conversation cleared. Next prompt will start fresh developer instructions."])).

Definition on_send (st : state) (prompt : string)
    (endpoint : request -> completion) : outcome :=
  let user_prompt := PyStr.strip prompt in
  if negb (PyStr.truthy user_prompt) && negb (nonempty (loaded_files st))
  then
    Continue (State (conversation_history st) (loaded_files st) (disk st)
      (trace st ++
         [Popup "Please either enter a prompt or load files to send."]))
  else
    match ingest_files (disk st) (loaded_files st)
                       (conversation_history st) with
    | (Raise e, h) => Uncaught e (State h (loaded_files st) (disk st) (trace st))
    | (Return h1, _) =>
        let h2 :=
          if PyStr.truthy user_prompt then add_user_message h1 user_prompt
          else h1 in
        let '(h3, answer) :=
          match send_chat_completion endpoint h2 with
          | Answer a => (add_assistant_message h2 a, a)
          | Failure err => (h2, "Error: " +:+ err)
          end in
        Continue (State h3 []
          (save_history json_dump (disk st) HISTORY_JSON_PATH h3)
          (trace st ++
             [WindowUpdate "-FILES-" "";
              CompletionCall (Request MODEL_NAME h2 1);
              WindowUpdate "-RESPONSE-" answer;
              WindowUpdate "-PROMPT-" ""]))
    end.

(** The send is let through when there is a prompt or a loaded file. *)
Definition accepted (st : state) (prompt : string) : bool :=
  PyStr.truthy (PyStr.strip prompt) || nonempty (loaded_files st).

(** The history after step 2 of the handler, from the history [h1] that
    the ingestion left. *)
Definition with_prompt (h1 : list message) (prompt : string)
    : list message :=
  if PyStr.truthy (PyStr.strip prompt)
  then add_user_message h1 (PyStr.strip prompt)
  else h1.

Definition handle (st : state) (ev : event) : outcome :=
  match ev with
  | EvSelectFiles p => on_select_files st p
  | EvClearFiles => on_clear_files st
  | EvClearConvo => on_clear_convo st
  | EvSend prompt endpoint => on_send st prompt endpoint
  end.

(** The loop, over the events [window.read()] delivers. *)
Fixpoint run (st : state) (evs : list event) : outcome :=
  match evs with
  | [] => Continue st
  | ev :: evs' =>
      match handle st ev with
      | Continue st' => run st' evs'
      | Uncaught e st' => Uncaught e st'
      end
  end.

(** How [main] reaches the loop. *)
Inductive startup : Type :=
  | Started (st : state)
  | StartupRaised (e : exn)
  | NotAHistory (v : json).

(** Lines 117-128 of [main], for a file that holds a list of messages;
    any other value the file decodes to is reported as [NotAHistory]. *)
Definition main_startup (dsk : gmap string file_data) : startup :=
  match load_or_init_history json_load dsk HISTORY_JSON_PATH with
  | Raise e => StartupRaised e
  | Return v =>
      match history_of_json v with
      | None => NotAHistory v
      | Some [] =>
          let h := add_developer_message [] initial_instructions in
          Started (State h [] (save_history json_dump dsk HISTORY_JSON_PATH h) [])
      | Some h => Started (State h [] dsk [])
      end
  end.

End Loop.

(** ** The [-SAVE_OUTPUT-] branch *)

Section SaveOutput.

(** [str.upper]. *)
Variable str_upper : string -> string.

(** [f"{role}:\n{content}\n\n"], with the role in upper case. *)
Definition export_block (msg : message) : string :=
  str_upper (role msg) +:+ ":" +:+ PyStr.nl +:+ content msg
  +:+ PyStr.nl +:+ PyStr.nl.

(** What the loop [for msg in conversation_history] writes. *)
Fixpoint export_text (history : list message) : string :=
  match history with
  | [] => EmptyString
  | msg :: rest => export_block msg +:+ export_text rest
  end.

(** The branch, for the path [sg.popup_get_file] returned ([None] when the
    dialog was cancelled) and for what [open(save_path, "w")] does:
    [open_error] holds the text of the exception it raises, if any. *)
Definition on_save_output (st : state) (save_path : option string)
    (open_error : option string) : outcome :=
  match save_path with
  | None => Continue st
  | Some path =>
      if negb (PyStr.truthy path) then Continue st
      else
        match open_error with
        | None =>
            Continue (State (conversation_history st) (loaded_files st)
              (<[path := Utf8 (export_text (conversation_history st))]>
                 (disk st))
              (trace st ++ [Popup ("Conversation saved to " +:+ path)]))
        | Some err =>
            Continue (State (conversation_history st) (loaded_files st)
              (disk st)
              (trace st ++ [Popup ("Failed to save file: " +:+ err)]))
        end
  end.

End SaveOutput.

(** ** Vocabulary for the properties of the chunker and of the loop *)

(** The lines of a buffer; the empty buffer holds no line. *)
Definition lines_of (cur : string) : list string :=
  if PyStr.truthy cur then PyStr.split PyStr.NL cur else [].

(** The chunks read back as lines. *)
Definition chunk_lines (chunks : list string) : list string :=
  concat (map (PyStr.split PyStr.NL) chunks).

(** The lines that hold something else than whitespace. *)
Definition content_lines (ls : list string) : list string :=
  filter (fun l => PyStr.all_space l = false) ls.

(** The first line of a chunk. *)
Definition head_line (chunk : string) : string :=
  hd EmptyString (PyStr.split PyStr.NL chunk).

(** Between two neighbouring chunks the split was forced: the earlier chunk
    with the first line of the later one is over the budget. *)
Fixpoint greedy (tiktoken_encode : string -> string -> list Z)
    (max_tokens : Z) (chunks : list string) : Prop :=
  match chunks with
  | c :: rest =>
      match rest with
      | c' :: _ =>
          ~ fits_trimmed tiktoken_encode max_tokens
              (c +:+ PyStr.nl +:+ head_line c')
      | [] => True
      end
      /\ greedy tiktoken_encode max_tokens rest
  | [] => True
  end.

(** No empty line is lost where it would show: a non-empty line directly
    followed by an empty line is within the budget, trimmed, or only
    whitespace-only lines come behind that empty line. *)
Fixpoint blank_gap_safe (tiktoken_encode : string -> string -> list Z)
    (max_tokens : Z) (ls : list string) : Prop :=
  match ls with
  | l :: rest =>
      match rest with
      | EmptyString :: later =>
          l <> EmptyString ->
          fits_trimmed tiktoken_encode max_tokens l
          \/ Forall (fun x => PyStr.all_space x = true) later
      | _ => True
      end
      /\ blank_gap_safe tiktoken_encode max_tokens rest
  | [] => True
  end.

(** What a buffer or a chunk is: within the budget, trimmed, or free of
    line feeds. *)
Definition fits_or_line (tiktoken_encode : string -> string -> list Z)
    (max_tokens : Z) (c : string) : Prop :=
  fits_trimmed tiktoken_encode max_tokens c
  \/ PyStr.contains PyStr.NL c = false.

(** The user messages one file contributes, as a list: one per chunk, the
    parts numbered from 1. *)
Definition chunk_messages (basename : string -> string) (fp : string)
    (code_chunks : list string) : list message :=
  imap (fun i chunk => Message "user" (chunk_msg basename fp (S i) chunk))
       code_chunks.

Definition file_messages (tiktoken_encode : string -> string -> list Z)
    (basename : string -> string) (dsk : gmap string file_data)
    (fp : string) : list message :=
  match read_text dsk fp with
  | Return code_content =>
      chunk_messages basename fp
        (chunk_text tiktoken_encode code_content CHUNK_SIZE)
  | Raise _ => []
  end.

(** The history file holds the dump of the history in memory. *)
Definition synced (json_dump : json -> string) (st : state) : Prop :=
  disk st !! HISTORY_JSON_PATH
  = Some (Utf8 (json_dump (json_of_history (conversation_history st)))).

(** No developer message behind the first position. *)
Definition developer_first (h : list message) : Prop :=
  Forall (fun m => role m <> "developer") (tail h).

(** Every loaded path names a file of the disk. *)
Definition files_exist (st : state) : Prop :=
  Forall (fun fp => is_Some (disk st !! fp)) (loaded_files st).

Definition is_send (ev : event) : bool :=
  match ev with
  | EvSend _ _ => true
  | _ => false
  end.

(** ** Stand-ins for the libraries, used by the examples *)

(** One token per character. *)
Definition char_encode (_ : string) (text : string) : list Z :=
  map (fun c => Z.of_nat (nat_of_ascii c)) (list_ascii_of_string text).

(** A decoder that knows two texts: the empty list and a bare number. *)
Definition tiny_json_load (text : string) : decoded :=
  if String.eqb text "[]" then Decoded (JList [])
  else if String.eqb text "42" then Decoded (JNumber 42)
  else JSONDecodeError.

(** A dump that only tells how many messages the history has. *)
Definition tiny_json_dump (v : json) : string :=
  match v with
  | JList [] => "[]"
  | JList l => "[" +:+ pretty (length l) +:+ " messages]"
  | _ => "?"
  end.

Definition id_basename (path : string) : string := path.

(** An endpoint that answers, and one that fails. *)
Definition endpoint_ok (_ : request) : completion := Answer "Hi there".
Definition endpoint_down (_ : request) : completion :=
  Failure "Connection timed out".

(** Four lines: indented text, a blank line, text with a trailing blank,
    and the empty line after the last line feed. *)
Definition sample_text : string :=
  "  ab" +:+ PyStr.nl +:+ PyStr.nl +:+ "cd " +:+ PyStr.nl.

(** A disk with one source file, one file that is not text, one history
    file that is not JSON and one that holds a bare number. *)
Definition sample_disk : gmap string file_data :=
  <["a.py" := Utf8 sample_text]>
    (<["logo.png" := NotUtf8]>
       (<["broken.json" := Utf8 "{oops"]>
          (<["number.json" := Utf8 "42"]> ∅))).

(** A primed conversation with [a.py] selected. *)
Definition sample_state : state :=
  State [Message "developer" initial_instructions] ["a.py"] sample_disk [].

(** The same conversation with nothing selected. *)
Definition idle_state : state :=
  State [Message "developer" initial_instructions] [] sample_disk [].

(** The same conversation with a file selected that is not text. *)
Definition binary_state : state :=
  State [Message "developer" initial_instructions] ["logo.png"] sample_disk [].


(** [str.upper] on the letters a to z. *)
Fixpoint upper_az (s : string) : string :=
  match s with
  | EmptyString => EmptyString
  | String c s' =>
      let n := nat_of_ascii c in
      String (if ((97 <=? n) && (n <=? 122))%nat
              then ascii_of_nat (n - 32) else c)
             (upper_az s')
  end.

(** The state a first start on the sample disk leads to. *)
Definition started_state : state :=
  State [Message "developer" initial_instructions] []
    (save_history tiny_json_dump sample_disk HISTORY_JSON_PATH
       [Message "developer" initial_instructions]) [].


(** ** Examples *)

Example isspace_samples :
  map PyStr.isspace [" "%char; PyStr.NL; "a"%char; ascii_of_nat 160]
  = [true; true; false; true].
Proof. reflexivity. Qed.

Example strip_sample : PyStr.strip ("  a b " +:+ PyStr.nl) = "a b".
Proof. reflexivity. Qed.

Example split_sample :
  PyStr.split PyStr.NL ("a" +:+ PyStr.nl +:+ PyStr.nl +:+ "b" +:+ PyStr.nl)
  = ["a"; ""; "b"; ""].
Proof. reflexivity. Qed.

Example chunk_sample :
  chunk_text char_encode ("ab" +:+ PyStr.nl +:+ "cd" +:+ PyStr.nl +:+ "ef") 5
  = ["ab" +:+ PyStr.nl +:+ "cd"; "ef"].
Proof. reflexivity. Qed.

(** * Properties *)

(** ** Facts about the string primitives *)

Module PyStrFacts.
Import PyStr.

Lemma append_assoc (a b c : string) : (a +:+ b) +:+ c = a +:+ (b +:+ c).
Proof.
  induction a as [|x a IH]; simpl.
  - reflexivity.
  - rewrite IH. reflexivity.
Qed.

Lemma append_empty_r (a : string) : a +:+ "" = a.
Proof. induction a as [|x a IH]; simpl; [reflexivity | now rewrite IH]. Qed.

Lemma append_empty_inv (a b : string) : a +:+ b = "" -> a = "" /\ b = "".
Proof. destruct a; simpl; [auto | discriminate]. Qed.

Lemma isspace_NL : isspace NL = true.
Proof. reflexivity. Qed.

Lemma all_space_nl : all_space nl = true.
Proof. reflexivity. Qed.

Lemma truthy_true (s : string) : truthy s = true <-> s <> "".
Proof. destruct s; simpl; split; congruence. Qed.

Lemma truthy_false (s : string) : truthy s = false <-> s = "".
Proof. destruct s; simpl; split; congruence. Qed.

Lemma all_space_app (a b : string) :
  all_space (a +:+ b) = all_space a && all_space b.
Proof.
  induction a as [|x a IH]; simpl; [reflexivity |].
  rewrite IH. now rewrite andb_assoc.
Qed.

Lemma lstrip_all_space (s : string) : all_space s = true -> lstrip s = "".
Proof.
  induction s as [|c s IH]; simpl; [reflexivity |].
  intros [Hc Hs]%andb_true_iff. rewrite Hc. auto.
Qed.

Lemma lstrip_empty_inv (s : string) : lstrip s = "" -> all_space s = true.
Proof.
  induction s as [|c s IH]; simpl; [reflexivity |].
  destruct (isspace c); simpl; [exact IH | discriminate].
Qed.

Lemma all_space_rstrip (s : string) : all_space (rstrip s) = all_space s.
Proof.
  induction s as [|c s IH]; simpl; [reflexivity |].
  destruct (rstrip s) as [|d r] eqn:E.
  - simpl in IH. rewrite <- IH.
    destruct (isspace c) eqn:Hc; simpl; rewrite ?Hc; reflexivity.
  - change (all_space (String c (String d r)))
      with (isspace c && all_space (String d r)).
    now rewrite IH.
Qed.

Lemma rstrip_all_space (s : string) : all_space s = true -> rstrip s = "".
Proof.
  induction s as [|c s IH]; simpl; [reflexivity |].
  intros [Hc Hs]%andb_true_iff. rewrite (IH Hs), Hc. reflexivity.
Qed.

Lemma strip_empty_iff (s : string) : strip s = "" <-> all_space s = true.
Proof.
  unfold strip. split.
  - intros H%lstrip_empty_inv. now rewrite all_space_rstrip in H.
  - intros H. now rewrite (rstrip_all_space s H).
Qed.

Lemma lstrip_app_ws (w s : string) :
  all_space w = true -> lstrip (w +:+ s) = lstrip s.
Proof.
  induction w as [|c w IH]; simpl; [reflexivity |].
  intros [Hc Hw]%andb_true_iff. rewrite Hc. auto.
Qed.

Lemma rstrip_app_ws (s w : string) :
  all_space w = true -> rstrip (s +:+ w) = rstrip s.
Proof.
  intros Hw. induction s as [|c s IH]; simpl.
  - now apply rstrip_all_space.
  - now rewrite IH.
Qed.

Lemma rstrip_app_l (x s : string) :
  rstrip s <> "" -> rstrip (x +:+ s) = x +:+ rstrip s.
Proof.
  intros Hs. induction x as [|c x IH]; simpl; [reflexivity |].
  rewrite IH. destruct (x +:+ rstrip s) eqn:E; [| reflexivity].
  apply append_empty_inv in E. tauto.
Qed.

(** Whitespace in front of a string does not survive [strip]. *)
Lemma strip_app_ws_l (w s : string) :
  all_space w = true -> strip (w +:+ s) = strip s.
Proof.
  intros Hw. destruct (rstrip s) as [|d r] eqn:E.
  - assert (Hs : all_space s = true).
    { rewrite <- all_space_rstrip, E. reflexivity. }
    transitivity "".
    + apply strip_empty_iff. rewrite all_space_app, Hw, Hs. reflexivity.
    + symmetry. now apply strip_empty_iff.
  - unfold strip. rewrite rstrip_app_l by (rewrite E; discriminate).
    now apply lstrip_app_ws.
Qed.

(** Nor does whitespace behind it. *)
Lemma strip_app_ws_r (s w : string) :
  all_space w = true -> strip (s +:+ w) = strip s.
Proof. intros Hw. unfold strip. now rewrite rstrip_app_ws. Qed.

Lemma split_nonempty (sep : ascii) (s : string) : split sep s <> [].
Proof.
  destruct s as [|c s]; simpl; [discriminate |].
  destruct (Ascii.eqb c sep); [discriminate |].
  destruct (split sep s); discriminate.
Qed.

Lemma join_cons (sep x : string) (l : list string) :
  l <> [] -> join sep (x :: l) = x +:+ sep +:+ join sep l.
Proof. destruct l; [congruence | reflexivity]. Qed.

Lemma join_snoc (sep : string) (l : list string) (x : string) :
  l <> [] -> join sep (l ++ [x]) = join sep l +:+ sep +:+ x.
Proof.
  induction l as [|y l IH]; [congruence |]. intros _.
  destruct l as [|z l]; [reflexivity |].
  change ((y :: z :: l) ++ [x]) with (y :: ((z :: l) ++ [x])).
  rewrite join_cons by (simpl; discriminate).
  rewrite IH by discriminate.
  rewrite (join_cons sep y (z :: l)) by discriminate.
  now rewrite !append_assoc.
Qed.

(** Two neighbours joined by hand or by [join]: the same text. *)
Lemma join_glue (sep a b : string) (xs ys : list string) :
  join sep (xs ++ (a +:+ sep +:+ b) :: ys) = join sep (xs ++ a :: b :: ys).
Proof.
  induction xs as [|x xs IH].
  - simpl app. destruct ys as [|y ys]; [reflexivity |].
    rewrite !join_cons by discriminate. now rewrite !append_assoc.
  - change (join sep (x :: (xs ++ (a +:+ sep +:+ b) :: ys))
            = join sep (x :: (xs ++ a :: b :: ys))).
    rewrite !join_cons by (destruct xs; discriminate).
    now rewrite IH.
Qed.

(** Splitting on the line feed and joining back gives the text. *)
Lemma join_split (s : string) : join nl (split NL s) = s.
Proof.
  induction s as [|c s IH]; [reflexivity |].
  simpl split. destruct (Ascii.eqb c NL) eqn:E.
  - apply Ascii.eqb_eq in E. subst c.
    rewrite join_cons by apply split_nonempty. now rewrite IH.
  - destruct (split NL s) as [|h t] eqn:Hs.
    + now apply split_nonempty in Hs.
    + rewrite <- IH. destruct t; reflexivity.
Qed.

Lemma split_no_sep (sep : ascii) (s : string) :
  contains sep s = false -> split sep s = [s].
Proof.
  induction s as [|c s IH]; simpl; [reflexivity |].
  intros [Hc Hs]%orb_false_iff. rewrite Hc, (IH Hs). reflexivity.
Qed.

End PyStrFacts.

(** ** The chunker *)

Section ChunkerFacts.

Import PyStr PyStrFacts.

Variable enc : string -> string -> list Z.
Variable N : Z.

Local Notation "'step'" := (chunk_step enc N).
Local Notation "'loop'" := (chunk_loop enc N).
Local Notation "'fits'" := (fits_trimmed enc N).

Lemma chunk_loop_cons (p : string) (ls : list string)
    (st : list string * string) :
  loop (p :: ls) st = loop ls (step st p).
Proof. reflexivity. Qed.

(** With an empty buffer the line becomes the buffer. *)
Lemma chunk_step_empty (chunks : list string) (p : string) :
  step (chunks, "") p = (chunks, p).
Proof. unfold chunk_step. simpl. now rewrite andb_false_r. Qed.

(** Over budget with a non-empty buffer: the buffer is pushed. *)
Lemma chunk_step_push (chunks : list string) (cur p : string) :
  cur <> "" -> ~ fits (cur +:+ nl +:+ p) ->
  step (chunks, cur) p = (chunks ++ [cur], p).
Proof.
  intros Hcur Hover. unfold chunk_step.
  apply truthy_true in Hcur. rewrite Hcur, andb_true_r.
  destruct (Z.gtb_spec
    (Z.of_nat (count_tokens enc (strip (cur +:+ nl +:+ p)) MODEL_NAME)) N)
    as [_|Hle]; [reflexivity |].
  exfalso. apply Hover. exact Hle.
Qed.

(** Within budget with a non-empty buffer: the line is appended. *)
Lemma chunk_step_grow (chunks : list string) (cur p : string) :
  cur <> "" -> fits (cur +:+ nl +:+ p) ->
  step (chunks, cur) p = (chunks, cur +:+ nl +:+ p).
Proof.
  intros Hcur Hfit. unfold chunk_step.
  apply truthy_true in Hcur. rewrite Hcur, andb_true_r.
  destruct (Z.gtb_spec
    (Z.of_nat (count_tokens enc (strip (cur +:+ nl +:+ p)) MODEL_NAME)) N)
    as [Hgt|_]; [| reflexivity].
  exfalso. unfold fits_trimmed, within_budget in Hfit. lia.
Qed.

Lemma fits_dec (s : string) : fits s \/ ~ fits s.
Proof. unfold fits_trimmed, within_budget. lia. Qed.

Lemma nonempty_append (a b : string) : a <> "" -> a +:+ b <> "".
Proof. intros Ha H. apply append_empty_inv in H. tauto. Qed.

(** The loop invariant once the buffer is non-empty, for lines that fit:
    the buffer stays non-empty and within budget, pushed chunks are within
    budget, and chunks and buffer together spell the lines read. *)
Lemma chunk_loop_inv (ls : list string) :
  forall (chunks : list string) (cur : string),
    cur <> "" -> fits cur -> Forall fits ls -> Forall fits chunks ->
    exists chunks' cur',
      loop ls (chunks, cur) = (chunks', cur')
      /\ cur' <> "" /\ fits cur' /\ Forall fits chunks'
      /\ join nl (chunks' ++ [cur']) = join nl ((chunks ++ [cur]) ++ ls).
Proof.
  induction ls as [|p ls IH]; intros chunks cur Hne Hcur Hls Hchunks.
  - exists chunks, cur. rewrite app_nil_r. auto.
  - apply Forall_cons_1 in Hls as [Hp Hls].
    rewrite chunk_loop_cons.
    destruct (fits_dec (cur +:+ nl +:+ p)) as [Hfit|Hover].
    + rewrite chunk_step_grow by assumption.
      destruct (IH chunks (cur +:+ nl +:+ p)) as (cs & c & E & ? & ? & ? & J);
        auto using nonempty_append.
      exists cs, c. repeat split; auto.
      rewrite J, <- !app_assoc. exact (join_glue nl cur p chunks ls).
    + rewrite chunk_step_push by assumption.
      assert (Hp_ne : p <> "").
      { intros ->. apply Hover. unfold fits_trimmed.
        rewrite strip_app_ws_r by reflexivity. exact Hcur. }
      destruct (IH (chunks ++ [cur]) p) as (cs & c & E & ? & ? & ? & J);
        auto.
      { apply Forall_app. split; [assumption |]. now constructor. }
      exists cs, c. repeat split; auto.
      rewrite J, <- !app_assoc. reflexivity.
Qed.

Lemma chunk_text_emitted (text : string) :
  chunk_text enc text N = emitted (loop (split NL text) ([], "")).
Proof.
  unfold chunk_text, emitted.
  now destruct (chunk_loop enc N (split NL text) ([], "")).
Qed.

(** A whitespace-only last element does not show once the join is
    trimmed. *)
Lemma strip_join_drop_ws (xs : list string) (w : string) :
  all_space w = true ->
  strip (join nl (xs ++ [w])) = strip (join nl xs).
Proof.
  intros Hw. destruct xs as [|x xs].
  - simpl. transitivity ""; [now apply strip_empty_iff | reflexivity].
  - rewrite join_snoc by discriminate.
    apply strip_app_ws_r. rewrite all_space_app, Hw. reflexivity.
Qed.

(** The whole run, for lines that fit: the trimmed join of the chunks is
    the trimmed join of the lines, and every chunk fits. *)
Lemma chunk_run_fits (ls : list string) :
  Forall fits ls ->
  strip (join nl (emitted (loop ls ([], "")))) = strip (join nl ls)
  /\ Forall fits (emitted (loop ls ([], ""))).
Proof.
  induction ls as [|l ls IH]; intros Hls.
  - split; [reflexivity | constructor].
  - apply Forall_cons_1 in Hls as [Hl Hls].
    rewrite chunk_loop_cons, chunk_step_empty.
    destruct l as [|c l'].
    + destruct (IH Hls) as [IH1 IH2]. split; [| exact IH2].
      rewrite IH1. destruct ls as [|l2 ls]; [reflexivity |].
      rewrite (join_cons nl "" (l2 :: ls)) by discriminate.
      symmetry. apply (strip_app_ws_l nl). reflexivity.
    + destruct (chunk_loop_inv ls [] (String c l'))
        as (cs & cur & E & Hne & Hcur & Hcs & J); auto; try discriminate.
      rewrite E. unfold emitted. simpl fst. simpl snd.
      simpl app in J. rewrite <- J.
      destruct (truthy (strip cur)) eqn:T.
      * split; [reflexivity |].
        apply Forall_app. split; [assumption | now constructor].
      * split; [| assumption].
        symmetry. apply strip_join_drop_ws.
        apply strip_empty_iff. now apply truthy_false.
Qed.

End ChunkerFacts.

Section ChunkerClaims.

Import PyStr PyStrFacts.

Variable enc : string -> string -> list Z.

(** A text without a line feed goes through the loop once, with an empty
    buffer, so the budget is never consulted. *)
Lemma chunk_text_one_line (text : string) (N : Z) :
  contains NL text = false ->
  chunk_text enc text N = if truthy (strip text) then [text] else [].
Proof.
  intros Hnl. rewrite chunk_text_emitted, (split_no_sep NL text Hnl).
  rewrite chunk_loop_cons, chunk_step_empty. reflexivity.
Qed.

(** A single whitespace-only line is dropped by the final
    [if current_chunk.strip()] test, whatever its token count. *)
Lemma chunk_text_blank_line (text : string) (N : Z) :
  contains NL text = false -> all_space text = true ->
  chunk_text enc text N = [].
Proof.
  intros Hnl Hws. rewrite chunk_text_one_line by assumption.
  apply strip_empty_iff in Hws. now rewrite Hws.
Qed.

(** C5, on the code: the loop counts the tokens of the trimmed candidate and
    emits the buffer as it is.  The line ["a"] followed by the line [" "]
    comes out as the one chunk ["a\n "] as soon as ["a"] is within the
    budget, whatever the tokenizer says of the chunk itself. *)
Theorem chunk_text_counts_trimmed_only (N : Z) :
  within_budget enc N "a" ->
  chunk_text enc ("a" +:+ nl +:+ " ") N = ["a" +:+ nl +:+ " "].
Proof.
  intros Ha. rewrite chunk_text_emitted.
  change (split NL ("a" +:+ nl +:+ " ")) with ["a"; " "].
  rewrite !chunk_loop_cons, chunk_step_empty.
  rewrite chunk_step_grow; [reflexivity | discriminate | exact Ha].
Qed.

(** C8, amended: a single line (no line feed) that has a non-whitespace
    character yields exactly one chunk, the line itself, whatever its
    token count and so in particular when it exceeds [N]. *)
Theorem chunk_text_single_line (text : string) (N : Z) :
  contains NL text = false -> strip text <> "" ->
  chunk_text enc text N = [text].
Proof.
  intros Hnl Hne. rewrite chunk_text_one_line by assumption.
  apply truthy_true in Hne. now rewrite Hne.
Qed.

End ChunkerClaims.

(** C2 as stated fails: for the text made of an empty line followed by the
    line ["a "], the chunks are [["a "]] under every tokenizer; their join is
    neither the trimmed text ["a"] nor the text itself. *)
Lemma chunk_text_roundtrip_fails :
  ~ (forall (enc : string -> string -> list Z) (text : string) (N : Z),
       (0 < N)%Z ->
       PyStr.join PyStr.nl (chunk_text enc text N) = PyStr.strip text
       \/ PyStr.join PyStr.nl (chunk_text enc text N) = text).
Proof.
  intros H.
  destruct (H char_encode (PyStr.nl +:+ "a ") 3000%Z eq_refl) as [E|E];
    vm_compute in E; discriminate E.
Qed.

(** The same input under any tokenizer and any budget. *)
Lemma chunk_text_keeps_edge_whitespace
    (enc : string -> string -> list Z) (N : Z) :
  chunk_text enc (PyStr.nl +:+ "a ") N = ["a "].
Proof.
  rewrite chunk_text_emitted.
  change (PyStr.split PyStr.NL (PyStr.nl +:+ "a ")) with [""; "a "].
  now rewrite !chunk_loop_cons, !chunk_step_empty.
Qed.

(** What C2 has to leave out: after a line over the budget, the buffer is
    pushed by the empty line behind it, and that empty line is lost. *)
Example blank_line_lost_after_long_line :
  chunk_text char_encode ("ab" +:+ PyStr.nl +:+ PyStr.nl +:+ "c") 1
  = ["ab"; "c"].
Proof. reflexivity. Qed.

(** C5 is not met: with one token per character and budget 1, the lines
    ["a"] and [" "] each have one token, yet the only chunk is the whole
    text, three tokens long. *)
Lemma chunk_text_budget_fails :
  ~ (forall (enc : string -> string -> list Z) (text : string) (N : Z),
       Forall (within_budget enc N) (PyStr.split PyStr.NL text) ->
       Forall (within_budget enc N) (chunk_text enc text N)).
Proof.
  intros H.
  specialize (H char_encode ("a" +:+ PyStr.nl +:+ " ") 1%Z).
  assert (Hlines : Forall (within_budget char_encode 1)
            (PyStr.split PyStr.NL ("a" +:+ PyStr.nl +:+ " "))).
  { repeat constructor; vm_compute; intros E; discriminate E. }
  apply H in Hlines. apply Forall_inv in Hlines.
  vm_compute in Hlines. apply Hlines. reflexivity.
Qed.

(** Witness for C5: one token per character, budget 1; the chunk has three
    tokens. *)
Lemma chunk_text_counts_trimmed_only_witness :
  within_budget char_encode 1 "a"
  /\ within_budget char_encode 1 " "
  /\ chunk_text char_encode ("a" +:+ PyStr.nl +:+ " ") 1
     = ["a" +:+ PyStr.nl +:+ " "]
  /\ ~ within_budget char_encode 1 ("a" +:+ PyStr.nl +:+ " ").
Proof.
  assert (Ha : within_budget char_encode 1 "a")
    by (vm_compute; intros E; discriminate E).
  split; [exact Ha |]. split; [vm_compute; intros E; discriminate E |].
  split; [exact (chunk_text_counts_trimmed_only char_encode 1 Ha) |].
  vm_compute. intros E. apply E. reflexivity.
Defined.

(** C8 as stated fails: the one-line text [" "] has one token under the
    one-token-per-character tokenizer, more than the budget 0, and
    [chunk_text] returns no chunk. *)
Lemma chunk_text_oversized_line_fails :
  ~ (forall (enc : string -> string -> list Z) (text : string) (N : Z),
       PyStr.contains PyStr.NL text = false ->
       ~ within_budget enc N text ->
       chunk_text enc text N = [text]).
Proof.
  intros H.
  assert (E : chunk_text char_encode " " 0 = [" "]).
  { apply H; [reflexivity |]. vm_compute. intros E. apply E. reflexivity. }
  vm_compute in E. discriminate E.
Qed.

(** Witness for C8: a six-token line against a budget of 2. *)
Lemma chunk_text_single_line_witness :
  ~ within_budget char_encode 2 "abcdef"
  /\ chunk_text char_encode "abcdef" 2 = ["abcdef"].
Proof.
  split.
  - vm_compute. intros E. apply E. reflexivity.
  - apply (chunk_text_single_line char_encode "abcdef" 2).
    + reflexivity.
    + vm_compute. intros E. discriminate E.
Defined.

(** ** The history store *)

Section StoreClaims.

Variable json_load : string -> decoded.

(** A file that is not UTF-8 text makes the load raise: the handler in
    [load_or_init_history] names [json.JSONDecodeError] only. *)
Lemma load_or_init_history_not_utf8
    (dsk : gmap string file_data) (path : string) :
  dsk !! path = Some NotUtf8 ->
  load_or_init_history json_load dsk path = Raise (UnicodeDecodeError path).
Proof. intros H. unfold load_or_init_history. now rewrite H. Qed.

(** C4, amended: [load_or_init_history] returns the empty list when the
    file is absent, and when the file is text that [json.load] rejects
    with [JSONDecodeError]; text that decodes is returned as decoded,
    whatever its shape. *)
Theorem load_or_init_history_cases
    (dsk : gmap string file_data) (path text : string) :
  (dsk !! path = None ->
     load_or_init_history json_load dsk path = Return (JList []))
  /\ (dsk !! path = Some (Utf8 text) -> json_load text = JSONDecodeError ->
        load_or_init_history json_load dsk path = Return (JList []))
  /\ (forall v : json,
        dsk !! path = Some (Utf8 text) -> json_load text = Decoded v ->
        load_or_init_history json_load dsk path = Return v).
Proof.
  unfold load_or_init_history. repeat split.
  - now intros ->.
  - now intros -> ->.
  - now intros v -> ->.
Qed.

End StoreClaims.

(** C4 as stated fails: a history file that holds the JSON text [42] is not
    a list of role/content records, and [load_or_init_history] returns the
    number, not the empty history. *)
Lemma load_or_init_history_wrong_shape :
  ~ (forall (json_load : string -> decoded) (dsk : gmap string file_data)
            (path : string) (data : file_data),
       dsk !! path = Some data ->
       ~ parses_as_history json_load data ->
       load_or_init_history json_load dsk path = Return (JList [])).
Proof.
  intros H.
  specialize (H tiny_json_load sample_disk "number.json" (Utf8 "42") eq_refl).
  assert (Hshape : ~ parses_as_history tiny_json_load (Utf8 "42")).
  { intros (text & v & h & Ht & Hv & Hh).
    injection Ht as <-. vm_compute in Hv. injection Hv as <-.
    discriminate Hh. }
  apply H in Hshape. vm_compute in Hshape. discriminate Hshape.
Qed.

(** Witness for C4: the three cases on the sample disk. *)
Lemma load_or_init_history_cases_witness :
  load_or_init_history tiny_json_load sample_disk "missing.json"
    = Return (JList [])
  /\ load_or_init_history tiny_json_load sample_disk "broken.json"
    = Return (JList [])
  /\ load_or_init_history tiny_json_load sample_disk "number.json"
    = Return (JNumber 42).
Proof.
  split; [| split].
  - apply (proj1 (load_or_init_history_cases tiny_json_load sample_disk
                    "missing.json" "")).
    reflexivity.
  - apply (proj1 (proj2 (load_or_init_history_cases tiny_json_load
                           sample_disk "broken.json" "{oops")));
      reflexivity.
  - apply (proj2 (proj2 (load_or_init_history_cases tiny_json_load
                           sample_disk "number.json" "42")));
      reflexivity.
Defined.

(** ** The history helpers and the send handler *)

Lemma calls_app (tr1 tr2 : list effect) :
  calls (tr1 ++ tr2) = calls tr1 ++ calls tr2.
Proof.
  induction tr1 as [|e tr1 IH]; [reflexivity |].
  destruct e; simpl; now rewrite IH.
Qed.

Section LoopClaims.

Import PyStr PyStrFacts.

Variable enc : string -> string -> list Z.
Variable json_dump : json -> string.
Variable basename : string -> string.

Local Notation "'ingest'" := (ingest_files enc basename).
Local Notation "'send'" := (on_send enc json_dump basename).

(** The chunk messages of one file go behind the history, all with the
    user role. *)
Lemma add_chunks_spec (fp : string) (cs : list string) :
  forall (idx : nat) (h : list message),
    exists msgs : list message,
      add_chunks basename fp idx cs h = h ++ msgs
      /\ Forall (fun m => role m = "user") msgs.
Proof.
  induction cs as [|c cs IH]; intros idx h.
  - exists []. now rewrite app_nil_r.
  - change (add_chunks basename fp idx (c :: cs) h)
      with (add_chunks basename fp (S idx) cs
              (add_user_message h (chunk_msg basename fp idx c))).
    destruct (IH (S idx) (add_user_message h (chunk_msg basename fp idx c)))
      as (msgs & E & Hu).
    eexists (_ :: msgs). split.
    + rewrite E. unfold add_user_message. now rewrite <- app_assoc.
    + now constructor.
Qed.

(** So do the messages of the whole ingestion, whether it ends or a read
    fails on the way. *)
Lemma ingest_files_spec (dsk : gmap string file_data) (fps : list string) :
  forall h : list message,
    exists msgs : list message,
      Forall (fun m => role m = "user") msgs
      /\ (ingest dsk fps h = (Return (h ++ msgs), h ++ msgs)
          \/ exists e, ingest dsk fps h = (Raise e, h ++ msgs)).
Proof.
  induction fps as [|fp fps IH]; intros h; simpl.
  - exists []. rewrite app_nil_r. auto.
  - destruct (read_text dsk fp) as [code|e].
    + destruct (add_chunks_spec fp (chunk_text enc code CHUNK_SIZE) 1 h)
        as (m1 & E1 & H1).
      rewrite E1. destruct (IH (h ++ m1)) as (m2 & H2 & Hres).
      exists (m1 ++ m2). rewrite app_assoc. split; [| exact Hres].
      now apply Forall_app.
    + exists []. rewrite app_nil_r. eauto.
Qed.

Lemma read_text_readable (dsk : gmap string file_data) (fp : string) :
  readable dsk fp -> exists text, read_text dsk fp = Return text.
Proof.
  intros [text H]. exists (universal_newlines text).
  unfold read_text. now rewrite H.
Qed.

(** When every file can be read the ingestion ends normally. *)
Lemma ingest_files_readable (dsk : gmap string file_data)
    (fps : list string) :
  Forall (readable dsk) fps ->
  forall h, exists h1, ingest dsk fps h = (Return h1, h1).
Proof.
  induction 1 as [|fp fps Hfp _ IH]; intros h; simpl.
  - eauto.
  - destruct (read_text_readable dsk fp Hfp) as [text ->]. apply IH.
Qed.

Lemma on_send_rejected (st : state) (prompt : string)
    (endpoint : request -> completion) :
  accepted st prompt = false ->
  send st prompt endpoint
  = Continue (State (conversation_history st) (loaded_files st) (disk st)
      (trace st ++
         [Popup "Please either enter a prompt or load files to send."])).
Proof.
  unfold accepted, on_send. intros [-> ->]%orb_false_iff. reflexivity.
Qed.

Lemma on_send_raised (st : state) (prompt : string)
    (endpoint : request -> completion) (e : exn) (h : list message) :
  accepted st prompt = true ->
  ingest (disk st) (loaded_files st) (conversation_history st)
    = (Raise e, h) ->
  send st prompt endpoint
  = Uncaught e (State h (loaded_files st) (disk st) (trace st)).
Proof.
  unfold accepted, on_send. intros Hacc ->.
  rewrite <- negb_orb, Hacc. reflexivity.
Qed.

Lemma on_send_sent (st : state) (prompt : string)
    (endpoint : request -> completion) (h1 h' : list message) :
  accepted st prompt = true ->
  ingest (disk st) (loaded_files st) (conversation_history st)
    = (Return h1, h') ->
  send st prompt endpoint
  = let h2 := with_prompt h1 prompt in
    let h3 := match endpoint (Request MODEL_NAME h2 1) with
              | Answer a => add_assistant_message h2 a
              | Failure _ => h2
              end in
    let answer := match endpoint (Request MODEL_NAME h2 1) with
                  | Answer a => a
                  | Failure err => "Error: " +:+ err
                  end in
    Continue (State h3 []
      (save_history json_dump (disk st) HISTORY_JSON_PATH h3)
      (trace st ++
         [WindowUpdate "-FILES-" "";
          CompletionCall (Request MODEL_NAME h2 1);
          WindowUpdate "-RESPONSE-" answer;
          WindowUpdate "-PROMPT-" ""])).
Proof.
  unfold accepted, on_send, with_prompt, send_chat_completion.
  intros Hacc ->. rewrite <- negb_orb, Hacc. simpl negb. cbv iota.
  now destruct (endpoint _).
Qed.

(** The handler reads the prompt through [strip] only. *)
Lemma on_send_strip_eq (st : state) (p1 p2 : string)
    (endpoint : request -> completion) :
  strip p1 = strip p2 -> send st p1 endpoint = send st p2 endpoint.
Proof. intros H. unfold on_send. now rewrite H. Qed.

Lemma strip_padded (w1 p w2 : string) :
  all_space w1 = true -> all_space w2 = true ->
  strip (w1 +:+ p +:+ w2) = strip p.
Proof.
  intros H1 H2. rewrite strip_app_ws_l by assumption.
  now apply strip_app_ws_r.
Qed.

(** C9: a send with an empty or whitespace-only prompt and no loaded file
    is answered with the warning popup and nothing else: the history, the
    disk (the history file with it) and the loaded files are as before,
    and no request is made. *)
Theorem on_send_rejection_frame (st : state) (prompt : string)
    (endpoint : request -> completion) :
  all_space prompt = true -> loaded_files st = [] ->
  exists st' : state,
    send st prompt endpoint = Continue st'
    /\ conversation_history st' = conversation_history st
    /\ disk st' = disk st
    /\ loaded_files st' = loaded_files st
    /\ trace st' = trace st ++
         [Popup "Please either enter a prompt or load files to send."].
Proof.
  intros Hws Hfiles. eexists. split.
  - apply on_send_rejected. unfold accepted.
    apply strip_empty_iff in Hws. now rewrite Hws, Hfiles.
  - repeat split.
Qed.

(** C10: whitespace around the prompt does not change what the handler
    does; a whitespace-only prompt is handled as the empty one; and the
    user message that goes out for a prompt is its stripped text. *)
Theorem on_send_prompt_stripped (st : state) (w1 p w2 : string)
    (endpoint : request -> completion) :
  all_space w1 = true -> all_space w2 = true ->
  send st (w1 +:+ p +:+ w2) endpoint = send st p endpoint
  /\ send st (w1 +:+ w2) endpoint = send st "" endpoint
  /\ (forall h1 h' : list message,
        ingest (disk st) (loaded_files st) (conversation_history st)
          = (Return h1, h') ->
        strip p <> "" ->
        exists st' : state,
          send st (w1 +:+ p +:+ w2) endpoint = Continue st'
          /\ calls (trace st')
             = calls (trace st)
               ++ [Request MODEL_NAME (h1 ++ [Message "user" (strip p)]) 1]).
Proof.
  intros H1 H2.
  assert (E : strip (w1 +:+ p +:+ w2) = strip p) by now apply strip_padded.
  split; [now apply on_send_strip_eq |]. split.
  - apply on_send_strip_eq. transitivity "".
    + apply strip_empty_iff. now rewrite all_space_app, H1, H2.
    + reflexivity.
  - intros h1 h' Hing Hp. apply truthy_true in Hp. eexists. split.
    + apply (on_send_sent st _ endpoint h1 h'); [| exact Hing].
      unfold accepted. now rewrite E, Hp.
    + cbv zeta. simpl trace. rewrite calls_app. simpl calls.
      unfold with_prompt. now rewrite E, Hp.
Qed.

(** C6: when the send reaches the completion call and the call fails, the
    history is the one after the file chunks and the prompt (the old
    history followed by user messages only, no assistant message), that
    history is what the history file holds, and the response box shows
    the error text. *)
Theorem on_send_completion_failure (st : state) (prompt : string)
    (endpoint : request -> completion) (h1 h' : list message)
    (err : string) :
  accepted st prompt = true ->
  ingest (disk st) (loaded_files st) (conversation_history st)
    = (Return h1, h') ->
  send_chat_completion endpoint (with_prompt h1 prompt) = Failure err ->
  exists (st' : state) (added : list message),
    send st prompt endpoint = Continue st'
    /\ conversation_history st' = with_prompt h1 prompt
    /\ conversation_history st' = conversation_history st ++ added
    /\ Forall (fun m => role m = "user") added
    /\ disk st' !! HISTORY_JSON_PATH
       = Some (Utf8 (json_dump (json_of_history (with_prompt h1 prompt))))
    /\ trace st' = trace st ++
         [WindowUpdate "-FILES-" "";
          CompletionCall (Request MODEL_NAME (with_prompt h1 prompt) 1);
          WindowUpdate "-RESPONSE-" ("Error: " +:+ err);
          WindowUpdate "-PROMPT-" ""].
Proof.
  intros Hacc Hing Hfail. unfold send_chat_completion in Hfail.
  destruct (ingest_files_spec (disk st) (loaded_files st)
              (conversation_history st)) as (msgs & Hu & [E|[e E]]);
    rewrite E in Hing; [| discriminate Hing].
  injection Hing as <- _.
  exists (State (with_prompt (conversation_history st ++ msgs) prompt) []
            (save_history json_dump (disk st) HISTORY_JSON_PATH
               (with_prompt (conversation_history st ++ msgs) prompt))
            (trace st ++
               [WindowUpdate "-FILES-" "";
                CompletionCall (Request MODEL_NAME
                  (with_prompt (conversation_history st ++ msgs) prompt) 1);
                WindowUpdate "-RESPONSE-" ("Error: " +:+ err);
                WindowUpdate "-PROMPT-" ""])).
  exists (if truthy (strip prompt)
          then msgs ++ [Message "user" (strip prompt)] else msgs).
  split; [| repeat split].
  - rewrite (on_send_sent st prompt endpoint _ _ Hacc E). cbv zeta.
    now rewrite Hfail.
  - simpl. unfold with_prompt, add_user_message.
    destruct (truthy (strip prompt)); [now rewrite app_assoc | reflexivity].
  - destruct (truthy (strip prompt)); [| assumption].
    apply Forall_app. split; [assumption | now constructor].
  - simpl. unfold save_history. apply lookup_insert_eq.
Qed.

(** C3, amended: when the ingestion step of a send with loaded files
    returns, every file read and chunked, the send goes on and ends with no
    loaded file. *)
Theorem on_send_clears_loaded_files (st : state) (prompt : string)
    (endpoint : request -> completion) (h1 h' : list message) :
  loaded_files st <> [] ->
  ingest (disk st) (loaded_files st) (conversation_history st)
    = (Return h1, h') ->
  exists st' : state,
    send st prompt endpoint = Continue st' /\ loaded_files st' = [].
Proof.
  intros Hne Hing. eexists. split.
  - apply (on_send_sent st prompt endpoint h1 h'); [| exact Hing].
    unfold accepted. destruct (loaded_files st); [congruence |].
    apply orb_true_r.
  - reflexivity.
Qed.

(** When a read fails the exception leaves the handler before the
    clearing: the loaded files are as they were. *)
Lemma on_send_read_failure (st : state) (prompt : string)
    (endpoint : request -> completion) (e : exn) (h : list message) :
  loaded_files st <> [] ->
  ingest (disk st) (loaded_files st) (conversation_history st)
    = (Raise e, h) ->
  exists st' : state,
    send st prompt endpoint = Uncaught e st'
    /\ loaded_files st' = loaded_files st.
Proof.
  intros Hne Hing. eexists. split.
  - apply (on_send_raised st prompt endpoint e h); [| exact Hing].
    unfold accepted. destruct (loaded_files st); [congruence |].
    apply orb_true_r.
  - reflexivity.
Qed.

End LoopClaims.

Section HistoryOrder.

Import PyStr PyStrFacts.

Variable enc : string -> string -> list Z.
Variable json_dump : json -> string.
Variable basename : string -> string.

(** What one [history.append] does, for any role. *)
Lemma append_message_spec (h : list message) (m : message) :
  h `prefix_of` (h ++ [m])
  /\ length (h ++ [m]) = S (length h)
  /\ last (h ++ [m]) = Some m.
Proof.
  split; [now exists [m] |]. split.
  - rewrite length_app. simpl. lia.
  - apply last_snoc.
Qed.

(** One pass of the loop, for an event other than [-CLEAR_CONVO-]: the
    history keeps what it had, and a request, if one is made, carries the
    history of that moment. *)
Lemma handle_keeps_history (st : state) (ev : event) :
  ev <> EvClearConvo ->
  let st' := state_of (handle enc json_dump basename st ev) in
  conversation_history st `prefix_of` conversation_history st'
  /\ (calls (trace st') = calls (trace st)
      \/ exists req : request,
           calls (trace st') = calls (trace st) ++ [req]
           /\ conversation_history st `prefix_of` messages req
           /\ (conversation_history st' = messages req
               \/ exists a : string,
                    conversation_history st'
                    = messages req ++ [Message "assistant" a])).
Proof.
  intros Hev. destruct ev as [p| | |prompt endpoint]; [| |congruence|].
  - simpl. unfold on_select_files.
    destruct (negb (nonempty _)); simpl; (split; [reflexivity |]); left;
      [reflexivity |].
    rewrite calls_app. simpl. apply app_nil_r.
  - simpl. split; [reflexivity |]. left.
    rewrite calls_app. simpl. apply app_nil_r.
  - simpl handle. destruct (accepted st prompt) eqn:Hacc.
    + destruct (ingest_files_spec enc basename (disk st) (loaded_files st)
                  (conversation_history st)) as (msgs & _ & [E|[e E]]).
      * rewrite (on_send_sent enc json_dump basename st prompt endpoint
                   _ _ Hacc E).
        cbv zeta. simpl state_of. simpl conversation_history. simpl trace.
        assert (Hpre : conversation_history st `prefix_of`
                         with_prompt (conversation_history st ++ msgs)
                                     prompt).
        { unfold with_prompt, add_user_message.
          destruct (truthy (strip prompt)).
          - rewrite <- app_assoc. now eexists.
          - now eexists. }
        split.
        -- destruct (endpoint _); [| exact Hpre].
           unfold add_assistant_message.
           destruct Hpre as [k ->]. rewrite <- app_assoc. now eexists.
        -- right. eexists. split; [| split].
           ++ rewrite calls_app. reflexivity.
           ++ exact Hpre.
           ++ simpl messages. destruct (endpoint _); eauto.
      * rewrite (on_send_raised enc json_dump basename st prompt endpoint
                   e _ Hacc E).
        simpl. split; [now eexists | now left].
    + rewrite (on_send_rejected enc json_dump basename st prompt endpoint
                 Hacc).
      simpl. split; [reflexivity |]. left.
      rewrite calls_app. simpl. apply app_nil_r.
Qed.

(** C7: each of the three helpers keeps the messages already in the
    history where they are and puts exactly one message behind them;
    [send_chat_completion] hands the history over as it is; and over one
    pass of the loop that is not a clear, the old history is a prefix of
    the new one and of the messages of the request. *)
Theorem history_append_only :
  (forall (h : list message) (c : string),
     (h `prefix_of` add_developer_message h c
      /\ length (add_developer_message h c) = S (length h)
      /\ last (add_developer_message h c) = Some (Message "developer" c))
     /\ (h `prefix_of` add_user_message h c
         /\ length (add_user_message h c) = S (length h)
         /\ last (add_user_message h c) = Some (Message "user" c))
     /\ (h `prefix_of` add_assistant_message h c
         /\ length (add_assistant_message h c) = S (length h)
         /\ last (add_assistant_message h c)
            = Some (Message "assistant" c)))
  /\ (forall (endpoint : request -> completion) (h : list message),
        send_chat_completion endpoint h
        = endpoint (Request MODEL_NAME h 1))
  /\ (forall (st : state) (ev : event),
        ev <> EvClearConvo ->
        let st' := state_of (handle enc json_dump basename st ev) in
        conversation_history st `prefix_of` conversation_history st'
        /\ (calls (trace st') = calls (trace st)
            \/ exists req : request,
                 calls (trace st') = calls (trace st) ++ [req]
                 /\ conversation_history st `prefix_of` messages req
                 /\ (conversation_history st' = messages req
                     \/ exists a : string,
                          conversation_history st'
                          = messages req ++ [Message "assistant" a]))).
Proof.
  split; [| split].
  - intros h c. repeat apply conj; apply append_message_spec.
  - reflexivity.
  - apply handle_keeps_history.
Qed.

Lemma readable_save_history (dsk : gmap string file_data)
    (h : list message) (fp : string) :
  readable dsk fp ->
  readable (save_history json_dump dsk HISTORY_JSON_PATH h) fp.
Proof.
  intros [text H]. unfold readable, save_history.
  destruct (decide (HISTORY_JSON_PATH = fp)) as [<-|Hne].
  - rewrite lookup_insert_eq. eauto.
  - rewrite lookup_insert_ne by assumption. eauto.
Qed.

(** C1, on the code: after [-CLEAR_CONVO-], a send that goes through
    makes a request whose messages all have the user role; no developer
    message is put back in front. *)
Theorem clear_then_send_unprimed (st : state) (prompt : string)
    (endpoint : request -> completion) :
  accepted st prompt = true ->
  Forall (readable (disk st)) (loaded_files st) ->
  exists (st2 : state) (req : request),
    run enc json_dump basename st [EvClearConvo; EvSend prompt endpoint]
      = Continue st2
    /\ calls (trace st2) = calls (trace st) ++ [req]
    /\ Forall (fun m => role m = "user") (messages req).
Proof.
  intros Hacc Hread. simpl run.
  set (st1 := State [] (loaded_files st)
                (save_history json_dump (disk st) HISTORY_JSON_PATH [])
                (trace st ++
                   [WindowUpdate "-RESPONSE-" "";
                    Popup "Conversation cleared. Next prompt will start fresh developer instructions."])).
  change (on_clear_convo json_dump st) with (Continue st1). cbv iota.
  destruct (ingest_files_spec enc basename (disk st1) (loaded_files st1)
              (conversation_history st1)) as (msgs & Hu & [E|[e E]]).
  - rewrite (on_send_sent enc json_dump basename st1 prompt endpoint
               _ _ Hacc E).
    cbv zeta. do 2 eexists. split; [reflexivity |]. split.
    + simpl trace. rewrite !calls_app. simpl calls.
      now rewrite app_nil_r.
    + simpl messages. unfold with_prompt, add_user_message. simpl app.
      destruct (truthy (strip prompt)); [| assumption].
      apply Forall_app. split; [assumption | now constructor].
  - exfalso.
    destruct (ingest_files_readable enc basename (disk st1)
                (loaded_files st1)) with (h := conversation_history st1)
      as [h1 E1].
    + simpl. eapply Forall_impl; [exact Hread |].
      intros fp. apply readable_save_history.
    + rewrite E1 in E. discriminate E.
Qed.

End HistoryOrder.

(** ** The claims on sample runs *)

(** A first run on an empty disk: the history is primed and saved. *)
Example startup_fresh :
  main_startup tiny_json_load tiny_json_dump ∅
  = Started (State [Message "developer" initial_instructions] []
               (<[HISTORY_JSON_PATH := Utf8 "[1 messages]"]> ∅) []).
Proof. reflexivity. Qed.

(** From that state, clearing the conversation and sending ["Hello"]: the
    endpoint receives the user message alone. *)
Example clear_then_hello :
  calls (trace (state_of
    (run char_encode tiny_json_dump id_basename
       (State [Message "developer" initial_instructions] []
          (<[HISTORY_JSON_PATH := Utf8 "[1 messages]"]> ∅) [])
       [EvClearConvo; EvSend "Hello" endpoint_ok])))
  = [Request MODEL_NAME [Message "user" "Hello"] 1].
Proof. reflexivity. Qed.

(** Witness for C1. *)
Lemma clear_then_send_unprimed_witness :
  exists (st2 : state) (req : request),
    run char_encode tiny_json_dump id_basename sample_state
        [EvClearConvo; EvSend "Hello" endpoint_ok]
      = Continue st2
    /\ calls (trace st2) = calls (trace sample_state) ++ [req]
    /\ Forall (fun m => role m = "user") (messages req).
Proof.
  apply (clear_then_send_unprimed char_encode tiny_json_dump id_basename
           sample_state "Hello" endpoint_ok).
  - reflexivity.
  - repeat constructor. exists sample_text. reflexivity.
Defined.

(** C3 as stated fails: with [logo.png] selected, which is not text, the
    read raises [UnicodeDecodeError], nothing catches it, and the loaded
    files are still there when the handler is left. *)
Lemma on_send_keeps_files_on_failure :
  ~ (forall (enc : string -> string -> list Z) (json_dump : json -> string)
            (basename : string -> string) (st : state) (prompt : string)
            (endpoint : request -> completion),
       loaded_files st <> [] ->
       loaded_files (state_of (on_send enc json_dump basename st prompt
                                 endpoint)) = []).
Proof.
  intros H.
  specialize (H char_encode tiny_json_dump id_basename binary_state "Hello"
                endpoint_ok).
  assert (Hne : loaded_files binary_state <> []) by discriminate.
  apply H in Hne. vm_compute in Hne. discriminate Hne.
Qed.

Example binary_file_ends_the_loop :
  on_send char_encode tiny_json_dump id_basename binary_state "Hello"
    endpoint_ok
  = Uncaught (UnicodeDecodeError "logo.png") binary_state.
Proof. reflexivity. Qed.

(** Witness for C3. *)
Lemma on_send_clears_loaded_files_witness :
  loaded_files sample_state <> []
  /\ exists st' : state,
       on_send char_encode tiny_json_dump id_basename sample_state "Hello"
         endpoint_ok = Continue st'
       /\ loaded_files st' = [].
Proof.
  split; [discriminate |].
  apply (on_send_clears_loaded_files char_encode tiny_json_dump id_basename
           sample_state "Hello" endpoint_ok
           [Message "developer" initial_instructions;
            Message "user"
              ("[FILE: a.py, PART 1]" +:+ PyStr.nl +:+ sample_text)]
           [Message "developer" initial_instructions;
            Message "user"
              ("[FILE: a.py, PART 1]" +:+ PyStr.nl +:+ sample_text)]).
  - discriminate.
  - reflexivity.
Defined.

(** Witness for C6: [a.py] selected, the prompt [" Hello "], the endpoint
    down. *)
Lemma on_send_completion_failure_witness :
  exists (st' : state) (added : list message),
    on_send char_encode tiny_json_dump id_basename sample_state " Hello "
      endpoint_down = Continue st'
    /\ conversation_history st'
       = [Message "developer" initial_instructions;
          Message "user" ("[FILE: a.py, PART 1]" +:+ PyStr.nl +:+ sample_text);
          Message "user" "Hello"]
    /\ conversation_history st'
       = conversation_history sample_state ++ added
    /\ Forall (fun m => role m = "user") added
    /\ disk st' !! HISTORY_JSON_PATH = Some (Utf8 "[3 messages]")
    /\ trace st' = trace sample_state ++
         [WindowUpdate "-FILES-" "";
          CompletionCall (Request MODEL_NAME
            [Message "developer" initial_instructions;
             Message "user"
               ("[FILE: a.py, PART 1]" +:+ PyStr.nl +:+ sample_text);
             Message "user" "Hello"] 1);
          WindowUpdate "-RESPONSE-" "Error: Connection timed out";
          WindowUpdate "-PROMPT-" ""].
Proof.
  apply (on_send_completion_failure char_encode tiny_json_dump id_basename
           sample_state " Hello " endpoint_down
           [Message "developer" initial_instructions;
            Message "user"
              ("[FILE: a.py, PART 1]" +:+ PyStr.nl +:+ sample_text)]
           [Message "developer" initial_instructions;
            Message "user"
              ("[FILE: a.py, PART 1]" +:+ PyStr.nl +:+ sample_text)]
           "Connection timed out"); reflexivity.
Defined.

(** Witness for C7: a send with a file and a prompt that is answered. *)
Lemma history_append_only_witness :
  EvSend " Hello " endpoint_ok <> EvClearConvo
  /\ conversation_history sample_state `prefix_of`
       conversation_history
         (state_of (handle char_encode tiny_json_dump id_basename
                      sample_state (EvSend " Hello " endpoint_ok))).
Proof.
  assert (Hev : EvSend " Hello " endpoint_ok <> EvClearConvo)
    by discriminate.
  split; [exact Hev |].
  exact (proj1 (proj2 (proj2 (history_append_only char_encode tiny_json_dump
           id_basename)) sample_state (EvSend " Hello " endpoint_ok) Hev)).
Defined.

(** Witness for C9: three blanks in the prompt box, nothing selected. *)
Lemma on_send_rejection_frame_witness :
  exists st' : state,
    on_send char_encode tiny_json_dump id_basename idle_state "   "
      endpoint_ok = Continue st'
    /\ conversation_history st' = conversation_history idle_state
    /\ disk st' = disk idle_state
    /\ loaded_files st' = loaded_files idle_state
    /\ trace st' = trace idle_state ++
         [Popup "Please either enter a prompt or load files to send."].
Proof.
  apply (on_send_rejection_frame char_encode tiny_json_dump id_basename
           idle_state "   " endpoint_ok); reflexivity.
Defined.

(** Witness for C10: ["Hello"] typed with a blank in front and a line feed
    behind. *)
Lemma on_send_prompt_stripped_witness :
  on_send char_encode tiny_json_dump id_basename idle_state
    (" " +:+ "Hello" +:+ PyStr.nl) endpoint_ok
  = on_send char_encode tiny_json_dump id_basename idle_state "Hello"
      endpoint_ok
  /\ on_send char_encode tiny_json_dump id_basename idle_state
       (" " +:+ PyStr.nl) endpoint_ok
     = on_send char_encode tiny_json_dump id_basename idle_state ""
         endpoint_ok
  /\ exists st' : state,
       on_send char_encode tiny_json_dump id_basename idle_state
         (" " +:+ "Hello" +:+ PyStr.nl) endpoint_ok = Continue st'
       /\ calls (trace st')
          = calls (trace idle_state)
            ++ [Request MODEL_NAME
                  (conversation_history idle_state
                   ++ [Message "user" (PyStr.strip "Hello")]) 1].
Proof.
  destruct (on_send_prompt_stripped char_encode tiny_json_dump id_basename
              idle_state " " "Hello" PyStr.nl endpoint_ok eq_refl eq_refl)
    as (Hpad & Hblank & Hmsg).
  split; [exact Hpad |]. split; [exact Hblank |].
  apply (Hmsg (conversation_history idle_state)
              (conversation_history idle_state)).
  - reflexivity.
  - vm_compute. intros E. discriminate E.
Defined.

(** * Further properties *)

(** ** More on the string primitives *)

Module PyStrMore.
Import PyStr PyStrFacts.

Lemma split_cons_other (sep c : ascii) (s : string) :
  Ascii.eqb c sep = false ->
  exists h t, split sep s = h :: t /\ split sep (String c s) = String c h :: t.
Proof.
  intros Hc. destruct (split sep s) as [|h t] eqn:E.
  - now apply split_nonempty in E.
  - exists h, t. split; [reflexivity |]. simpl. now rewrite Hc, E.
Qed.

(** Splitting a text glued with a line feed gives the lines of both parts. *)
Lemma split_app_nl (a b : string) :
  split NL (a +:+ nl +:+ b) = split NL a ++ split NL b.
Proof.
  induction a as [|c a IH].
  - reflexivity.
  - change (String c a +:+ nl +:+ b) with (String c (a +:+ nl +:+ b)).
    destruct (Ascii.eqb c NL) eqn:Hc.
    + apply Ascii.eqb_eq in Hc. subst c.
      change (split NL (String NL (a +:+ nl +:+ b)))
        with ("" :: split NL (a +:+ nl +:+ b)).
      change (split NL (String NL a)) with ("" :: split NL a).
      now rewrite IH.
    + destruct (split_cons_other NL c (a +:+ nl +:+ b) Hc)
        as (h & t & E1 & E2).
      destruct (split_cons_other NL c a Hc) as (h' & t' & E1' & E2').
      rewrite E2, E2'. rewrite IH, E1' in E1. simpl in E1.
      injection E1 as <- <-. reflexivity.
Qed.

(** The lines of a text hold no line feed. *)
Lemma split_lines_no_nl (s : string) :
  Forall (fun l => contains NL l = false) (split NL s).
Proof.
  induction s as [|c s IH]; [now repeat constructor |].
  simpl split. destruct (Ascii.eqb c NL) eqn:Hc.
  - now constructor.
  - destruct (split NL s) as [|h t]; [now repeat constructor; simpl; rewrite Hc |].
    apply Forall_cons_1 in IH as [Hh Ht].
    constructor; [| exact Ht]. simpl. now rewrite Hc, Hh.
Qed.

(** The lines of a whitespace-only text are whitespace-only. *)
Lemma split_all_space (s : string) :
  all_space s = true -> Forall (fun l => all_space l = true) (split NL s).
Proof.
  induction s as [|c s IH]; [now repeat constructor |].
  simpl all_space. intros [Hc Hs]%andb_true_iff. specialize (IH Hs).
  simpl split. destruct (Ascii.eqb c NL).
  - now constructor.
  - destruct (split NL s) as [|h t]; [now repeat constructor; simpl; rewrite Hc |].
    apply Forall_cons_1 in IH as [Hh Ht].
    constructor; [| exact Ht]. simpl. now rewrite Hc, Hh.
Qed.

Lemma length_append (a b : string) :
  String.length (a +:+ b) = String.length a + String.length b.
Proof. induction a as [|c a IH]; simpl; [reflexivity | now rewrite IH]. Qed.

Lemma length_lstrip (s : string) : String.length (lstrip s) <= String.length s.
Proof.
  induction s as [|c s IH]; simpl; [lia |].
  destruct (isspace c); simpl; lia.
Qed.

(** [rstrip] cuts a whitespace-only tail off. *)
Lemma rstrip_decomp (s : string) :
  exists w, all_space w = true /\ s = rstrip s +:+ w.
Proof.
  induction s as [|c s (w & Hw & E)]; [now exists "" |].
  simpl rstrip. destruct (rstrip s) as [|d r] eqn:Hr.
  - simpl in E. subst s. destruct (isspace c) eqn:Hc.
    + exists (String c w). simpl. now rewrite Hc, Hw.
    + now exists w.
  - exists w. split; [exact Hw |]. simpl. now rewrite E at 1.
Qed.

Lemma length_rstrip (s : string) : String.length (rstrip s) <= String.length s.
Proof.
  destruct (rstrip_decomp s) as (w & _ & E).
  rewrite E at 2. rewrite length_append. lia.
Qed.

(** A text that [strip] leaves alone is left alone by [rstrip]. *)
Lemma strip_fixed_rstrip (s : string) : strip s = s -> rstrip s = s.
Proof.
  intros H. destruct (rstrip_decomp s) as (w & _ & E).
  assert (Hlen : String.length w = 0).
  { pose proof (length_lstrip (rstrip s)) as H1.
    unfold strip in H. rewrite H in H1.
    apply (f_equal String.length) in E. rewrite length_append in E. lia. }
  destruct w; [| discriminate Hlen].
  rewrite append_empty_r in E. now symmetry.
Qed.

(** And it does not start with whitespace. *)
Lemma strip_fixed_head (c : ascii) (s : string) :
  strip (String c s) = String c s -> isspace c = false.
Proof.
  intros H. pose proof (strip_fixed_rstrip _ H) as Hr.
  unfold strip in H. rewrite Hr in H. simpl in H.
  destruct (isspace c); [| reflexivity].
  pose proof (length_lstrip s) as Hl. rewrite H in Hl. simpl in Hl. lia.
Qed.

End PyStrMore.

(** ** More on the chunker *)

Section ChunkerMore.

Import PyStr PyStrFacts PyStrMore.

Variable enc : string -> string -> list Z.
Variable N : Z.

(** The three ways one iteration can go. *)
Lemma chunk_step_cases (chunks : list string) (cur p : string) :
  (cur = "" /\ chunk_step enc N (chunks, cur) p = (chunks, p))
  \/ (cur <> "" /\ ~ fits_trimmed enc N (cur +:+ nl +:+ p)
      /\ chunk_step enc N (chunks, cur) p = (chunks ++ [cur], p))
  \/ (cur <> "" /\ fits_trimmed enc N (cur +:+ nl +:+ p)
      /\ chunk_step enc N (chunks, cur) p = (chunks, cur +:+ nl +:+ p)).
Proof.
  destruct cur as [|c cur].
  - left. split; [reflexivity | apply chunk_step_empty].
  - right. destruct (fits_dec enc N (String c cur +:+ nl +:+ p)) as [Hf|Hf].
    + right. split; [discriminate |]. split; [exact Hf |].
      now apply chunk_step_grow.
    + left. split; [discriminate |]. split; [exact Hf |].
      now apply chunk_step_push.
Qed.

Lemma chunk_loop_nonempty (ls : list string) :
  forall (chunks : list string) (cur : string),
    Forall (fun c => c <> "") chunks ->
    Forall (fun c => c <> "") (fst (chunk_loop enc N ls (chunks, cur))).
Proof.
  induction ls as [|p ls IH]; intros chunks cur Hne; [exact Hne |].
  rewrite chunk_loop_cons.
  destruct (chunk_step_cases chunks cur p)
    as [[_ ->]|[(Hc & _ & ->)|(_ & _ & ->)]]; apply IH; auto.
  apply Forall_app. split; [exact Hne | now constructor].
Qed.

(** X1: [chunk_text] never returns an empty chunk. *)
Theorem chunk_text_nonempty_chunks (text : string) :
  Forall (fun c => c <> "") (chunk_text enc text N).
Proof.
  rewrite chunk_text_emitted.
  pose proof (chunk_loop_nonempty (split NL text) [] ""
                (List.Forall_nil _)) as H.
  destruct (chunk_loop enc N (split NL text) ([], "")) as [cs c].
  unfold emitted. simpl in *.
  destruct (truthy (strip c)) eqn:T; [| exact H].
  apply Forall_app. split; [exact H |]. constructor; [| constructor].
  intros ->. discriminate T.
Qed.

Lemma lines_of_line (p : string) :
  contains NL p = false -> lines_of p = [p] \/ (lines_of p = [] /\ p = "").
Proof.
  intros Hp. unfold lines_of. destruct p as [|c p]; [now right |].
  left. simpl truthy. cbv iota. now apply split_no_sep.
Qed.

Lemma lines_of_nonempty (cur : string) :
  cur <> "" -> lines_of cur = split NL cur.
Proof. intros H. unfold lines_of. apply truthy_true in H. now rewrite H. Qed.

Lemma chunk_lines_snoc (chunks : list string) (c : string) :
  chunk_lines (chunks ++ [c]) = chunk_lines chunks ++ split NL c.
Proof.
  unfold chunk_lines. rewrite map_app, concat_app. simpl.
  now rewrite app_nil_r.
Qed.

Lemma content_lines_blank (ls : list string) :
  Forall (fun l => all_space l = true) ls -> content_lines ls = [].
Proof.
  induction 1 as [|l ls Hl _ IH]; [reflexivity |].
  unfold content_lines. rewrite filter_cons_False by congruence. exact IH.
Qed.

(** One iteration adds the line to what chunks and buffer hold, or drops
    it when it is empty. *)
Lemma chunk_step_lines (chunks : list string) (cur p : string) :
  contains NL p = false ->
  exists x : list string,
    chunk_lines (fst (chunk_step enc N (chunks, cur) p))
      ++ lines_of (snd (chunk_step enc N (chunks, cur) p))
    = (chunk_lines chunks ++ lines_of cur) ++ x
    /\ (x = [p] \/ (x = [] /\ p = "")).
Proof.
  intros Hp.
  destruct (chunk_step_cases chunks cur p)
    as [[-> ->]|[(Hc & _ & ->)|(Hc & _ & ->)]]; cbn [fst snd].
  - exists (lines_of p). split; [| now apply lines_of_line].
    unfold lines_of at 2. simpl. now rewrite app_nil_r.
  - exists (lines_of p). split; [| now apply lines_of_line].
    now rewrite chunk_lines_snoc, (lines_of_nonempty cur Hc).
  - exists [p]. split; [| now left].
    rewrite lines_of_nonempty by now apply nonempty_append.
    rewrite split_app_nl, (split_no_sep NL p Hp), (lines_of_nonempty cur Hc).
    now rewrite app_assoc.
Qed.

Lemma chunk_loop_lines (ls : list string) :
  forall st : list string * string,
    Forall (fun l => contains NL l = false) ls ->
    exists x : list string,
      chunk_lines (fst (chunk_loop enc N ls st))
        ++ lines_of (snd (chunk_loop enc N ls st))
      = (chunk_lines (fst st) ++ lines_of (snd st)) ++ x
      /\ x `sublist_of` ls
      /\ content_lines x = content_lines ls.
Proof.
  induction ls as [|p ls IH]; intros [chunks cur] Hls.
  - exists []. rewrite app_nil_r. repeat split. constructor.
  - apply Forall_cons_1 in Hls as [Hp Hls]. rewrite chunk_loop_cons.
    destruct (chunk_step_lines chunks cur p Hp) as (x1 & E1 & Hx1).
    destruct (IH (chunk_step enc N (chunks, cur) p) Hls)
      as (x2 & E2 & S2 & C2).
    exists (x1 ++ x2). split; [| split].
    + rewrite E2, E1. cbn [fst snd]. now rewrite <- app_assoc.
    + change (p :: ls) with ([p] ++ ls). apply sublist_app; [| exact S2].
      destruct Hx1 as [->|[-> _]]; [reflexivity | apply sublist_nil_l].
    + unfold content_lines in *. change (p :: ls) with ([p] ++ ls).
      rewrite !filter_app, C2. f_equal.
      destruct Hx1 as [->|[-> ->]]; reflexivity.
Qed.

Lemma emitted_lines (st : list string * string) :
  chunk_lines (emitted st) `sublist_of` chunk_lines (fst st) ++ lines_of (snd st)
  /\ content_lines (chunk_lines (emitted st))
     = content_lines (chunk_lines (fst st) ++ lines_of (snd st)).
Proof.
  destruct st as [cs c]. unfold emitted. cbn [fst snd].
  destruct (truthy (strip c)) eqn:T.
  - assert (Hc : c <> "") by (intros ->; discriminate T).
    rewrite chunk_lines_snoc, (lines_of_nonempty c Hc). split; reflexivity.
  - split; [apply sublist_inserts_r; reflexivity |].
    unfold content_lines. rewrite filter_app.
    assert (Hb : content_lines (lines_of c) = []).
    { apply content_lines_blank. unfold lines_of.
      destruct (truthy c); [| constructor].
      apply split_all_space, strip_empty_iff. now apply truthy_false. }
    unfold content_lines in Hb. rewrite Hb. now rewrite app_nil_r.
Qed.

Lemma chunk_text_keeps_lines_aux (text : string) :
  chunk_lines (chunk_text enc text N) `sublist_of` split NL text
  /\ content_lines (chunk_lines (chunk_text enc text N))
     = content_lines (split NL text).
Proof.
  rewrite chunk_text_emitted.
  destruct (chunk_loop_lines (split NL text) ([], "")
              (split_lines_no_nl text)) as (x & E & Sx & Cx).
  destruct (emitted_lines (chunk_loop enc N (split NL text) ([], "")))
    as [Se Ce].
  simpl in E. rewrite E in Se, Ce. split.
  - now transitivity x.
  - now rewrite Ce.
Qed.

(** X2: read back as lines, the chunks are the lines of the text in their
    order, with nothing added and nothing split; only whitespace-only lines
    can be missing. *)
Theorem chunk_text_keeps_lines (text : string) :
  chunk_lines (chunk_text enc text N) `sublist_of` split NL text
  /\ content_lines (chunk_lines (chunk_text enc text N))
     = content_lines (split NL text).
Proof. apply chunk_text_keeps_lines_aux. Qed.

Lemma length_chunk_lines (chunks : list string) :
  length chunks <= length (chunk_lines chunks).
Proof.
  induction chunks as [|c cs IH]; [reflexivity |].
  unfold chunk_lines in *. simpl. rewrite length_app.
  pose proof (split_nonempty NL c) as Hc.
  destruct (split NL c); [congruence | simpl; lia].
Qed.

(** X3: there are never more chunks than lines. *)
Theorem chunk_text_count_le_lines (text : string) :
  length (chunk_text enc text N) <= length (split NL text).
Proof.
  etransitivity; [apply length_chunk_lines |].
  apply sublist_length, chunk_text_keeps_lines_aux.
Qed.

End ChunkerMore.

Section ChunkerBudget.

Import PyStr PyStrFacts PyStrMore.

Variable enc : string -> string -> list Z.
Variable N : Z.

Lemma fits_trimmed_blank (s : string) :
  within_budget enc N "" -> all_space s = true -> fits_trimmed enc N s.
Proof.
  intros H0 Hs. unfold fits_trimmed.
  apply strip_empty_iff in Hs. now rewrite Hs.
Qed.

Lemma chunk_loop_blank (ls : list string) :
  within_budget enc N "" ->
  Forall (fun l => all_space l = true) ls ->
  forall cur : string,
    all_space cur = true ->
    exists c : string,
      chunk_loop enc N ls ([], cur) = ([], c) /\ all_space c = true.
Proof.
  intros H0. induction 1 as [|p ls Hp _ IH]; intros cur Hcur.
  - now exists cur.
  - rewrite chunk_loop_cons.
    assert (Hfit : fits_trimmed enc N (cur +:+ nl +:+ p)).
    { apply fits_trimmed_blank; [exact H0 |].
      now rewrite !all_space_app, Hcur, Hp. }
    destruct (chunk_step_cases enc N [] cur p)
      as [[_ ->]|[(_ & Hover & _)|(_ & _ & ->)]].
    + now apply IH.
    + contradiction.
    + apply IH. now rewrite !all_space_app, Hcur, Hp.
Qed.

(** X4: a text made of whitespace only, the empty text included, gives no
    chunk, provided the empty string is within the budget. *)
Theorem chunk_text_blank_text (text : string) :
  all_space text = true -> within_budget enc N "" ->
  chunk_text enc text N = [].
Proof.
  intros Hws H0. rewrite chunk_text_emitted.
  destruct (chunk_loop_blank (split NL text) H0 (split_all_space text Hws)
              "" eq_refl) as (c & -> & Hc).
  unfold emitted. cbn [fst snd].
  apply strip_empty_iff in Hc. now rewrite Hc.
Qed.

(** X5: for a text that is not empty, has no whitespace at either end and
    whose lines fit the budget, joining the chunks with line feeds gives
    the text back exactly. *)
Theorem chunk_text_roundtrip_exact (text : string) :
  Forall (fits_trimmed enc N) (split NL text) ->
  strip text = text -> text <> "" ->
  join nl (chunk_text enc text N) = text.
Proof.
  intros Hfit Hstrip Hne. destruct text as [|c t]; [congruence |].
  pose proof (strip_fixed_head c t Hstrip) as Hc.
  assert (Hnl : Ascii.eqb c NL = false).
  { destruct (Ascii.eqb c NL) eqn:E; [| reflexivity].
    apply Ascii.eqb_eq in E. subst c. discriminate Hc. }
  destruct (split_cons_other NL c t Hnl) as (h & tl & _ & Esplit).
  pose proof (join_split (String c t)) as Hjoin.
  rewrite chunk_text_emitted. rewrite Esplit in *.
  apply Forall_cons_1 in Hfit as [Hh Htl].
  rewrite chunk_loop_cons, chunk_step_empty.
  destruct (chunk_loop_inv enc N tl [] (String c h))
    as (cs & cur & E & Hcur & _ & _ & J); auto; try discriminate.
  rewrite E. unfold emitted. cbn [fst snd].
  change (([] ++ [String c h]) ++ tl) with (String c h :: tl) in J.
  rewrite Hjoin in J.
  destruct (truthy (strip cur)) eqn:T; [exact J |].
  exfalso.
  assert (Hws : all_space cur = true).
  { apply strip_empty_iff. now apply truthy_false. }
  pose proof (strip_fixed_rstrip _ Hstrip) as Hr.
  assert (Hx : exists x, String c t = x +:+ cur).
  { destruct cs as [|c0 cs].
    - exists "". simpl in J. now rewrite <- J.
    - exists (join nl (c0 :: cs) +:+ nl). rewrite <- J.
      rewrite join_snoc by discriminate. now rewrite append_assoc. }
  destruct Hx as [x Hx]. rewrite Hx in Hr.
  rewrite rstrip_app_ws in Hr by exact Hws.
  pose proof (length_rstrip x) as Hl. rewrite Hr, length_append in Hl.
  destruct cur; [congruence | simpl in Hl; lia].
Qed.

Lemma head_line_line (p : string) : contains NL p = false -> head_line p = p.
Proof. intros Hp. unfold head_line. now rewrite split_no_sep. Qed.

Lemma head_line_grow (cur p : string) :
  head_line (cur +:+ nl +:+ p) = head_line cur.
Proof.
  unfold head_line. rewrite split_app_nl.
  pose proof (split_nonempty NL cur) as H.
  destruct (split NL cur); [congruence | reflexivity].
Qed.

Lemma greedy_last_changed (l : list string) (a a' : string) :
  head_line a' = head_line a ->
  greedy enc N (l ++ [a]) -> greedy enc N (l ++ [a']).
Proof.
  intros Hh. induction l as [|x l IH]; [now simpl |].
  destruct l as [|y l]; cbn [List.app greedy] in *.
  - intros [Hx _]. rewrite Hh. auto.
  - intros [Hx Hl]. split; [exact Hx | now apply IH].
Qed.

Lemma greedy_pushed (l : list string) (a b : string) :
  ~ fits_trimmed enc N (a +:+ nl +:+ head_line b) ->
  greedy enc N (l ++ [a]) -> greedy enc N ((l ++ [a]) ++ [b]).
Proof.
  intros Hab. induction l as [|x l IH]; cbn [List.app greedy] in *.
  - auto.
  - destruct l as [|y l]; cbn [List.app greedy] in *;
      intros [Hx Hl]; (split; [exact Hx | now apply IH]).
Qed.

Lemma greedy_prefix (l : list string) (a : string) :
  greedy enc N (l ++ [a]) -> greedy enc N l.
Proof.
  induction l as [|x l IH]; [now simpl |].
  destruct l as [|y l]; cbn [List.app greedy] in *; intros [Hx Hl].
  - auto.
  - split; [exact Hx | now apply IH].
Qed.

Lemma chunk_loop_greedy (ls : list string) :
  forall (chunks : list string) (cur : string),
    cur <> "" -> fits_trimmed enc N cur ->
    Forall (fits_trimmed enc N) ls ->
    Forall (fun l => contains NL l = false) ls ->
    greedy enc N (chunks ++ [cur]) ->
    greedy enc N
      (fst (chunk_loop enc N ls (chunks, cur))
       ++ [snd (chunk_loop enc N ls (chunks, cur))]).
Proof.
  induction ls as [|p ls IH]; intros chunks cur Hne Hcur Hfit Hnl Hg;
    [exact Hg |].
  apply Forall_cons_1 in Hfit as [Hp Hfit].
  apply Forall_cons_1 in Hnl as [Hpnl Hnl].
  rewrite chunk_loop_cons.
  destruct (chunk_step_cases enc N chunks cur p)
    as [[-> _]|[(_ & Hover & ->)|(_ & Hf & ->)]]; [congruence | |].
  - assert (Hp_ne : p <> "").
    { intros ->. apply Hover. unfold fits_trimmed.
      rewrite strip_app_ws_r by reflexivity. exact Hcur. }
    apply IH; auto. apply greedy_pushed; [| exact Hg].
    now rewrite head_line_line.
  - apply IH; auto using nonempty_append.
    apply (greedy_last_changed chunks cur); [apply head_line_grow | exact Hg].
Qed.

Lemma chunk_run_greedy (ls : list string) :
  Forall (fits_trimmed enc N) ls ->
  Forall (fun l => contains NL l = false) ls ->
  greedy enc N (emitted (chunk_loop enc N ls ([], ""))).
Proof.
  induction ls as [|l ls IH]; intros Hfit Hnl; [exact I |].
  apply Forall_cons_1 in Hfit as [Hl Hfit].
  apply Forall_cons_1 in Hnl as [Hlnl Hnl].
  rewrite chunk_loop_cons, chunk_step_empty.
  destruct l as [|c l']; [now apply IH |].
  pose proof (chunk_loop_greedy ls [] (String c l')) as Hg.
  destruct (chunk_loop enc N ls ([], String c l')) as [cs cur].
  unfold emitted. cbn [fst snd] in *.
  assert (G : greedy enc N (cs ++ [cur])).
  { apply Hg; auto; try discriminate. simpl. auto. }
  destruct (truthy (strip cur)); [exact G | now apply greedy_prefix in G].
Qed.

(** X6: when every line, trimmed, fits the budget, every cut is forced: a
    chunk followed by another one would be over the budget, trimmed, with
    the first line of that next chunk added. *)
Theorem chunk_text_greedy (text : string) :
  Forall (fits_trimmed enc N) (split NL text) ->
  greedy enc N (chunk_text enc text N).
Proof.
  intros Hfit. rewrite chunk_text_emitted.
  apply chunk_run_greedy; [exact Hfit | apply split_lines_no_nl].
Qed.

End ChunkerBudget.

(** ** The round trip and the budget, in general *)

Section ChunkerRoundTrip.

Import PyStr PyStrFacts PyStrMore.

Variable enc : string -> string -> list Z.
Variable N : Z.

Local Notation "'blank'" := (fun x : string => all_space x = true).

Lemma join_app (sep : string) (xs ys : list string) :
  xs <> [] -> ys <> [] ->
  join sep (xs ++ ys) = join sep xs +:+ sep +:+ join sep ys.
Proof.
  intros Hx Hy. induction xs as [|x xs IH]; [congruence |].
  destruct xs as [|x' xs].
  - simpl app. now apply join_cons.
  - change ((x :: x' :: xs) ++ ys) with (x :: ((x' :: xs) ++ ys)).
    rewrite join_cons by discriminate. rewrite IH by discriminate.
    rewrite (join_cons sep x (x' :: xs)) by discriminate.
    now rewrite !append_assoc.
Qed.

Lemma all_space_join (ys : list string) :
  Forall blank ys -> all_space (join nl ys) = true.
Proof.
  induction 1 as [|y ys Hy _ IH]; [reflexivity |].
  destruct ys as [|y' ys]; [exact Hy |].
  rewrite join_cons by discriminate.
  now rewrite !all_space_app, Hy, IH.
Qed.

(** Whitespace-only chunks at the end do not show once the join is
    trimmed. *)
Lemma strip_join_blank_tail (xs extra : list string) :
  Forall blank extra ->
  strip (join nl (xs ++ extra)) = strip (join nl xs).
Proof.
  intros He. destruct extra as [|e extra]; [now rewrite app_nil_r |].
  destruct xs as [|x xs].
  - simpl app. transitivity "".
    + apply strip_empty_iff. now apply all_space_join.
    + reflexivity.
  - rewrite join_app by discriminate. apply strip_app_ws_r.
    rewrite all_space_app. now rewrite (all_space_join _ He).
Qed.

(** Over whitespace-only lines and from a whitespace-only buffer, the loop
    can only push whitespace-only chunks. *)
Lemma chunk_loop_blank_tail (rest : list string) :
  Forall blank rest ->
  forall (chunks : list string) (cur : string),
    all_space cur = true ->
    exists (extra : list string) (c : string),
      chunk_loop enc N rest (chunks, cur) = (chunks ++ extra, c)
      /\ Forall blank extra /\ all_space c = true.
Proof.
  induction 1 as [|p rest Hp _ IH]; intros chunks cur Hcur.
  - exists [], cur. now rewrite app_nil_r.
  - rewrite chunk_loop_cons.
    destruct (chunk_step_cases enc N chunks cur p)
      as [[_ ->]|[(_ & _ & ->)|(_ & _ & ->)]].
    + now apply IH.
    + destruct (IH (chunks ++ [cur]) p Hp) as (extra & c & E & He & Hc).
      exists (cur :: extra), c. rewrite E, <- app_assoc.
      repeat split; [| exact Hc]. now constructor.
    + apply IH. now rewrite !all_space_app, Hcur, Hp.
Qed.

Lemma emitted_blank (chunks : list string) (c : string) :
  all_space c = true -> emitted (chunks, c) = chunks.
Proof.
  intros Hc. unfold emitted. cbn [fst snd].
  apply strip_empty_iff in Hc. now rewrite Hc.
Qed.

(** The loop from a non-empty buffer that is within the budget or is the
    line just read. *)
Lemma chunk_loop_gap (ls : list string) :
  forall (chunks : list string) (cur prev : string),
    cur <> "" ->
    fits_trimmed enc N cur \/ cur = prev ->
    blank_gap_safe enc N (prev :: ls) ->
    strip (join nl (emitted (chunk_loop enc N ls (chunks, cur))))
    = strip (join nl ((chunks ++ [cur]) ++ ls)).
Proof.
  induction ls as [|p ls IH]; intros chunks cur prev Hne Hcur Hsafe.
  - rewrite app_nil_r. unfold chunk_loop, emitted. cbn [fold_left fst snd].
    destruct (truthy (strip cur)) eqn:T; [reflexivity |].
    symmetry. apply strip_join_drop_ws.
    apply strip_empty_iff. now apply truthy_false.
  - rewrite chunk_loop_cons. destruct Hsafe as [Hgap Hsafe].
    destruct (chunk_step_cases enc N chunks cur p)
      as [[-> _]|[(_ & Hover & ->)|(_ & Hfit & ->)]]; [congruence | |].
    + destruct p as [|c p'].
      * assert (Hnf : ~ fits_trimmed enc N cur).
        { intros Hf. apply Hover. unfold fits_trimmed.
          rewrite strip_app_ws_r by reflexivity. exact Hf. }
        assert (Hblank : Forall blank ls).
        { destruct Hcur as [Hf| ->]; [contradiction |].
          destruct (Hgap Hne) as [Hf|Hb]; [contradiction | exact Hb]. }
        destruct (chunk_loop_blank_tail ls Hblank (chunks ++ [cur]) ""
                    eq_refl) as (extra & c & -> & He & Hc).
        rewrite emitted_blank by exact Hc.
        rewrite strip_join_blank_tail by exact He.
        symmetry. apply strip_join_blank_tail. now constructor.
      * rewrite (IH (chunks ++ [cur]) (String c p') (String c p'));
          [| discriminate | now right | exact Hsafe].
        now rewrite <- !app_assoc.
    + rewrite (IH chunks (cur +:+ nl +:+ p) p);
        [| now apply nonempty_append | now left | exact Hsafe].
      rewrite <- !app_assoc. f_equal.
      exact (join_glue nl cur p chunks ls).
Qed.

Lemma chunk_run_gap (ls : list string) :
  blank_gap_safe enc N ls ->
  strip (join nl (emitted (chunk_loop enc N ls ([], ""))))
  = strip (join nl ls).
Proof.
  induction ls as [|l ls IH]; intros Hsafe; [reflexivity |].
  rewrite chunk_loop_cons, chunk_step_empty.
  destruct l as [|c l'].
  - rewrite IH by apply Hsafe. destruct ls as [|l2 ls]; [reflexivity |].
    rewrite (join_cons nl "" (l2 :: ls)) by discriminate.
    symmetry. apply (strip_app_ws_l nl). reflexivity.
  - apply (chunk_loop_gap ls [] (String c l') (String c l'));
      [discriminate | now right | exact Hsafe].
Qed.

(** C2, amended: joining the chunks of [chunk_text text N] with line feeds
    gives back the text up to leading and trailing whitespace (the trimmed
    join is the trimmed text), provided no empty line is lost where it
    shows: every non-empty line directly followed by an empty line is
    within the budget, trimmed, or has only whitespace-only lines behind
    that empty line. *)
Theorem chunk_text_roundtrip_trimmed (text : string) :
  blank_gap_safe enc N (split NL text) ->
  strip (join nl (chunk_text enc text N)) = strip text.
Proof.
  intros Hsafe. rewrite chunk_text_emitted.
  rewrite (chunk_run_gap _ Hsafe). now rewrite join_split.
Qed.

Lemma chunk_loop_fits_or_line (ls : list string) :
  Forall (fun l => contains NL l = false) ls ->
  forall (chunks : list string) (cur : string),
    Forall (fits_or_line enc N) chunks -> fits_or_line enc N cur ->
    Forall (fits_or_line enc N) (emitted (chunk_loop enc N ls (chunks, cur))).
Proof.
  induction 1 as [|p ls Hp _ IH]; intros chunks cur Hcs Hcur.
  - unfold chunk_loop, emitted. cbn [fold_left fst snd].
    destruct (truthy (strip cur)); [| exact Hcs].
    apply Forall_app. split; [exact Hcs | now constructor].
  - rewrite chunk_loop_cons.
    destruct (chunk_step_cases enc N chunks cur p)
      as [[_ ->]|[(_ & _ & ->)|(_ & Hfit & ->)]].
    + apply IH; [exact Hcs | now right].
    + apply IH; [| now right].
      apply Forall_app. split; [exact Hcs | now constructor].
    + apply IH; [exact Hcs | now left].
Qed.

Lemma chunk_text_fits_or_line (text : string) :
  Forall (fits_or_line enc N) (chunk_text enc text N).
Proof.
  rewrite chunk_text_emitted.
  apply chunk_loop_fits_or_line;
    [apply split_lines_no_nl | constructor | now right].
Qed.

(** X21: a chunk that is over the budget, trimmed, is one line of the text
    on its own; so when every line is within the budget, trimmed, so is
    every chunk. *)
Theorem chunk_text_over_budget_is_line (text c : string) :
  c ∈ chunk_text enc text N ->
  ~ fits_trimmed enc N c ->
  c ∈ split NL text /\ contains NL c = false.
Proof.
  intros Hin Hover.
  pose proof (chunk_text_fits_or_line text) as Hall.
  rewrite Forall_forall in Hall. destruct (Hall c Hin) as [Hf|Hline];
    [contradiction |].
  split; [| exact Hline].
  destruct (chunk_text_keeps_lines_aux enc N text) as [Hsub _].
  apply (sublist_subseteq _ _ Hsub).
  unfold chunk_lines. apply list_elem_of_In, in_concat.
  exists (split NL c). split.
  - apply in_map, list_elem_of_In, Hin.
  - rewrite (split_no_sep NL c Hline). now left.
Qed.

End ChunkerRoundTrip.

(** ** More on the ingestion and on the send handler *)

Section LoopMore.

Import PyStr PyStrFacts.

Variable enc : string -> string -> list Z.
Variable json_dump : json -> string.
Variable basename : string -> string.

Lemma add_chunks_imap (fp : string) (cs : list string) :
  forall (idx : nat) (h : list message),
    add_chunks basename fp idx cs h
    = h ++ imap (fun i chunk =>
                   Message "user" (chunk_msg basename fp (idx + i) chunk)) cs.
Proof.
  induction cs as [|c cs IH]; intros idx h.
  - simpl. now rewrite app_nil_r.
  - change (add_chunks basename fp idx (c :: cs) h)
      with (add_chunks basename fp (S idx) cs
              (add_user_message h (chunk_msg basename fp idx c))).
    rewrite IH, imap_cons. unfold add_user_message.
    rewrite <- app_assoc, Nat.add_0_r. simpl app. do 2 f_equal.
    apply imap_ext. intros i x _. simpl. now rewrite Nat.add_succ_r.
Qed.

(** X7: the messages of one file are one user message per chunk, in the
    order of the chunks, the part numbers counting from 1, behind the
    history as it was. *)
Theorem add_chunks_messages (fp : string) (cs : list string)
    (h : list message) :
  add_chunks basename fp 1 cs h = h ++ chunk_messages basename fp cs
  /\ length (add_chunks basename fp 1 cs h) = length h + length cs
  /\ forall (i : nat) (chunk : string),
       cs !! i = Some chunk ->
       add_chunks basename fp 1 cs h !! (length h + i)
       = Some (Message "user" (chunk_msg basename fp (S i) chunk)).
Proof.
  assert (E : add_chunks basename fp 1 cs h
              = h ++ chunk_messages basename fp cs)
    by apply add_chunks_imap.
  split; [exact E |]. rewrite E. split.
  - unfold chunk_messages. now rewrite length_app, length_imap.
  - intros i chunk Hi. rewrite lookup_app_r by lia.
    replace (length h + i - length h) with i by lia.
    unfold chunk_messages. rewrite list_lookup_imap, Hi. reflexivity.
Qed.

(** X8: when the ingestion step returns, it has appended the messages of
    the files, file after file in the order of [loaded_files], each file
    giving the chunk messages of its text as read, and nothing else. *)
Theorem ingest_files_messages (dsk : gmap string file_data)
    (fps : list string) :
  forall h h1 h' : list message,
    ingest_files enc basename dsk fps h = (Return h1, h') ->
    h1 = h ++ concat (map (file_messages enc basename dsk) fps)
    /\ h' = h1.
Proof.
  induction fps as [|fp fps IH]; intros h h1 h'.
  - simpl. intros [= <- <-]. now rewrite app_nil_r.
  - cbn [ingest_files].
    destruct (read_text dsk fp) as [code|e] eqn:R; [| discriminate].
    intros H. apply IH in H as [-> ->]. split; [| reflexivity].
    cbn [List.map List.concat]. unfold file_messages at 2. rewrite R.
    rewrite add_chunks_imap. unfold chunk_messages.
    now rewrite <- !app_assoc.
Qed.

Lemma ingest_raise_inv (dsk : gmap string file_data) (fps : list string) :
  forall (h h' : list message) (e : exn),
    ingest_files enc basename dsk fps h = (Raise e, h') ->
    exists fp : string, fp ∈ fps /\ read_text dsk fp = Raise e.
Proof.
  induction fps as [|fp fps IH]; intros h h' e; simpl; [discriminate |].
  destruct (read_text dsk fp) as [code|e0] eqn:R.
  - intros H. destruct (IH _ _ _ H) as (fp' & Hin & Hr).
    exists fp'. split; [now right | exact Hr].
  - intros [= <- _]. exists fp. split; [now left | exact R].
Qed.

(** X9: when the send reaches the completion call and the call answers,
    the answer is appended as the assistant message behind the file chunks
    and the prompt, that history is written to the history file, the loaded
    files are cleared and the answer is shown. *)
Theorem on_send_completion_success (st : state) (prompt : string)
    (endpoint : request -> completion) (h1 h' : list message) (a : string) :
  accepted st prompt = true ->
  ingest_files enc basename (disk st) (loaded_files st)
    (conversation_history st) = (Return h1, h') ->
  send_chat_completion endpoint (with_prompt h1 prompt) = Answer a ->
  exists st' : state,
    on_send enc json_dump basename st prompt endpoint = Continue st'
    /\ conversation_history st'
       = with_prompt h1 prompt ++ [Message "assistant" a]
    /\ synced json_dump st'
    /\ loaded_files st' = []
    /\ trace st' = trace st ++
         [WindowUpdate "-FILES-" "";
          CompletionCall (Request MODEL_NAME (with_prompt h1 prompt) 1);
          WindowUpdate "-RESPONSE-" a;
          WindowUpdate "-PROMPT-" ""].
Proof.
  intros Hacc Hing Hans. unfold send_chat_completion in Hans.
  eexists. split.
  - rewrite (on_send_sent enc json_dump basename st prompt endpoint _ _
               Hacc Hing).
    cbv zeta. rewrite Hans. reflexivity.
  - repeat split. unfold synced, save_history. simpl.
    apply lookup_insert_eq.
Qed.

Lemma on_send_ingestion_failure_aux (st st' : state) (prompt : string)
    (endpoint : request -> completion) (e : exn) :
  on_send enc json_dump basename st prompt endpoint = Uncaught e st' ->
  (exists fp : string,
     fp ∈ loaded_files st /\ read_text (disk st) fp = Raise e)
  /\ disk st' = disk st.
Proof.
  intros H. destruct (accepted st prompt) eqn:Hacc.
  - destruct (ingest_files_spec enc basename (disk st) (loaded_files st)
                (conversation_history st)) as (msgs & Hu & [E|[e0 E]]).
    + rewrite (on_send_sent enc json_dump basename st prompt endpoint _ _
                 Hacc E) in H.
      discriminate H.
    + rewrite (on_send_raised enc json_dump basename st prompt endpoint _ _
                 Hacc E) in H.
      injection H as <- <-. split; [| reflexivity].
      eapply ingest_raise_inv. exact E.
  - rewrite (on_send_rejected enc json_dump basename st prompt endpoint Hacc)
      in H.
    discriminate H.
Qed.


End LoopMore.

(** ** Invariants of the loop *)

Section LoopInvariants.

Import PyStr PyStrFacts.

Variable enc : string -> string -> list Z.
Variable json_dump : json -> string.
Variable basename : string -> string.
Variable str_upper : string -> string.

Local Notation "'step_of'" := (handle enc json_dump basename).
Local Notation "'run_of'" := (run enc json_dump basename).

(** What one pass does to history, disk and loaded files when the loop goes
    on. *)
Lemma handle_continue_cases (st st' : state) (ev : event) :
  step_of st ev = Continue st' ->
  (conversation_history st' = conversation_history st
   /\ disk st' = disk st)
  \/ synced json_dump st'.
Proof.
  destruct ev as [p| | |prompt endpoint]; simpl handle.
  - unfold on_select_files. destruct (negb (nonempty _));
      intros [= <-]; now left.
  - intros [= <-]. now left.
  - intros [= <-]. right. unfold synced, save_history. simpl.
    apply lookup_insert_eq.
  - destruct (accepted st prompt) eqn:Hacc.
    + destruct (ingest_files_spec enc basename (disk st) (loaded_files st)
                  (conversation_history st)) as (msgs & _ & [E|[e E]]).
      * rewrite (on_send_sent enc json_dump basename st prompt endpoint
                   _ _ Hacc E).
        cbv zeta. intros [= <-]. right. unfold synced, save_history. simpl.
        apply lookup_insert_eq.
      * rewrite (on_send_raised enc json_dump basename st prompt endpoint
                   _ _ Hacc E).
        discriminate.
    + rewrite (on_send_rejected enc json_dump basename st prompt endpoint
                 Hacc).
      intros [= <-]. now left.
Qed.

(** X11: whenever an event changes the history and the loop goes on, the
    history file holds the dump of the new history. *)
Theorem handle_saves_changes (st st' : state) (ev : event) :
  step_of st ev = Continue st' ->
  conversation_history st' <> conversation_history st ->
  synced json_dump st'.
Proof.
  intros H Hch. destruct (handle_continue_cases st st' ev H) as [[E _]|Hs];
    [congruence | exact Hs].
Qed.



(** What one pass appends: nothing but user and assistant messages, unless
    it empties the history. *)
Lemma handle_appends (st : state) (ev : event) :
  conversation_history (state_of (step_of st ev)) = []
  \/ exists added : list message,
       conversation_history (state_of (step_of st ev))
       = conversation_history st ++ added
       /\ Forall (fun m => role m <> "developer") added.
Proof.
  destruct ev as [p| | |prompt endpoint]; simpl handle.
  - right. exists []. rewrite app_nil_r. split; [| constructor].
    unfold on_select_files. now destruct (negb (nonempty _)).
  - right. exists []. rewrite app_nil_r. split; [reflexivity | constructor].
  - now left.
  - right. destruct (accepted st prompt) eqn:Hacc.
    + destruct (ingest_files_spec enc basename (disk st) (loaded_files st)
                  (conversation_history st)) as (msgs & Hu & [E|[e E]]).
      * rewrite (on_send_sent enc json_dump basename st prompt endpoint
                   _ _ Hacc E).
        cbv zeta. cbn [state_of conversation_history].
        assert (Hm : Forall (fun m => role m <> "developer") msgs).
        { eapply Forall_impl; [exact Hu |]. intros m ->. discriminate. }
        exists (msgs
                ++ (if truthy (strip prompt)
                    then [Message "user" (strip prompt)] else [])
                ++ match endpoint (Request MODEL_NAME
                           (with_prompt (conversation_history st ++ msgs)
                                        prompt) 1) with
                   | Answer a => [Message "assistant" a]
                   | Failure _ => []
                   end).
        split.
        -- unfold with_prompt, add_user_message, add_assistant_message.
           destruct (truthy (strip prompt)), (endpoint _);
             now rewrite <- ?app_assoc, ?app_nil_r.
        -- repeat apply Forall_app_2; [exact Hm | |].
           ++ destruct (truthy (strip prompt)); repeat constructor.
              discriminate.
           ++ destruct (endpoint _); repeat constructor. discriminate.
      * rewrite (on_send_raised enc json_dump basename st prompt endpoint
                   _ _ Hacc E).
        exists msgs. split; [reflexivity |].
        eapply Forall_impl; [exact Hu |]. intros m ->. discriminate.
    + rewrite (on_send_rejected enc json_dump basename st prompt endpoint
                 Hacc).
      exists []. rewrite app_nil_r. split; [reflexivity | constructor].
Qed.

Lemma developer_first_app (h added : list message) :
  developer_first h ->
  Forall (fun m => role m <> "developer") added ->
  developer_first (h ++ added).
Proof.
  unfold developer_first. intros Hh Ha. destruct h as [|m h].
  - simpl. now apply Forall_tail.
  - simpl in *. now apply Forall_app.
Qed.

(** X13: the loop never puts a developer message behind the first
    position: if the history has none there, it has none there after any
    run of events, however the run ends. *)
Theorem run_keeps_developer_first (evs : list event) :
  forall st : state,
    developer_first (conversation_history st) ->
    developer_first (conversation_history (state_of (run_of st evs))).
Proof.
  induction evs as [|ev evs IH]; intros st Hst; [exact Hst |].
  simpl run.
  assert (H1 : developer_first
                 (conversation_history (state_of (step_of st ev)))).
  { destruct (handle_appends st ev) as [->|(added & -> & Ha)].
    - constructor.
    - now apply developer_first_app. }
  destruct (step_of st ev) as [st1|e st1]; [now apply IH | exact H1].
Qed.

Lemma handle_files_exist (st st' : state) (ev : event) :
  files_exist st -> step_of st ev = Continue st' -> files_exist st'.
Proof.
  unfold files_exist. intros Hst.
  destruct ev as [p| | |prompt endpoint]; simpl handle.
  - unfold on_select_files. destruct (negb (nonempty _));
      intros [= <-]; [exact Hst |]. simpl.
    apply Forall_app. split; [exact Hst |].
    apply Forall_forall. intros fp [Hk _]%list_elem_of_filter.
    apply andb_true_iff in Hk as [_ Hk]. now apply bool_decide_eq_true in Hk.
  - intros [= <-]. constructor.
  - intros [= <-]. simpl. eapply Forall_impl; [exact Hst |].
    intros fp Hfp. unfold save_history.
    apply lookup_insert_is_Some. destruct (decide (HISTORY_JSON_PATH = fp));
      auto.
  - destruct (accepted st prompt) eqn:Hacc.
    + destruct (ingest_files_spec enc basename (disk st) (loaded_files st)
                  (conversation_history st)) as (msgs & _ & [E|[e E]]).
      * rewrite (on_send_sent enc json_dump basename st prompt endpoint
                   _ _ Hacc E).
        cbv zeta. intros [= <-]. constructor.
      * rewrite (on_send_raised enc json_dump basename st prompt endpoint
                   _ _ Hacc E).
        discriminate.
    + rewrite (on_send_rejected enc json_dump basename st prompt endpoint
                 Hacc).
      now intros [= <-].
Qed.

Lemma handle_uncaught_inv (st st' : state) (ev : event) (e : exn) :
  files_exist st -> step_of st ev = Uncaught e st' ->
  forall fp : string, e <> FileNotFoundError fp.
Proof.
  intros Hst. destruct ev as [p| | |prompt endpoint]; simpl handle.
  - unfold on_select_files. destruct (negb (nonempty _)); discriminate.
  - discriminate.
  - discriminate.
  - intros H.
    destruct (on_send_ingestion_failure_aux enc json_dump basename st st'
                prompt endpoint e H)
      as ((fp & Hin & Hr) & _).
    unfold files_exist in Hst. rewrite Forall_forall in Hst.
    destruct (Hst fp Hin) as [d Hd]. unfold read_text in Hr.
    rewrite Hd in Hr. destruct d; [discriminate Hr |].
    injection Hr as <-. discriminate.
Qed.

(** X14: the paths in [loaded_files] passed the [os.path.isfile] test when
    they were selected, so as long as files are not removed, no run of
    events ends with the [FileNotFoundError] of a loaded path. *)
Theorem run_never_misses_loaded_file (evs : list event) :
  forall (st st' : state) (e : exn),
    files_exist st ->
    run_of st evs = Uncaught e st' ->
    forall fp : string, e <> FileNotFoundError fp.
Proof.
  induction evs as [|ev evs IH]; intros st st' e Hst; simpl run;
    [discriminate |].
  destruct (step_of st ev) as [st1|e1 st1] eqn:H.
  - apply IH. now apply (handle_files_exist st st1 ev).
  - intros [= <- <-]. now apply (handle_uncaught_inv st st1 ev).
Qed.

Lemma handle_calls (st : state) (ev : event) :
  calls (trace (state_of (step_of st ev))) = calls (trace st)
  \/ (is_send ev = true
      /\ exists req : request,
           calls (trace (state_of (step_of st ev)))
           = calls (trace st) ++ [req]).
Proof.
  destruct ev as [p| | |prompt endpoint]; simpl handle.
  - left. unfold on_select_files. destruct (negb (nonempty _)); simpl;
      [reflexivity |].
    rewrite calls_app. apply app_nil_r.
  - left. simpl. rewrite calls_app. apply app_nil_r.
  - left. simpl. rewrite calls_app. apply app_nil_r.
  - destruct (accepted st prompt) eqn:Hacc.
    + destruct (ingest_files_spec enc basename (disk st) (loaded_files st)
                  (conversation_history st)) as (msgs & _ & [E|[e E]]).
      * right. split; [reflexivity |].
        rewrite (on_send_sent enc json_dump basename st prompt endpoint
                   _ _ Hacc E).
        cbv zeta. cbn [state_of trace]. rewrite calls_app. eauto.
      * left.
        now rewrite (on_send_raised enc json_dump basename st prompt
                       endpoint _ _ Hacc E).
    + left.
      rewrite (on_send_rejected enc json_dump basename st prompt endpoint
                 Hacc).
      simpl. rewrite calls_app. apply app_nil_r.
Qed.

(** X15: only send events reach the endpoint, and each at most once: a run
    makes at most as many requests as it has send events. *)
Theorem run_calls_bounded (evs : list event) :
  forall st : state,
    length (calls (trace (state_of (run_of st evs))))
    <= length (calls (trace st))
       + length (filter (fun ev => is_send ev = true) evs).
Proof.
  induction evs as [|ev evs IH]; intros st; simpl run; [simpl; lia |].
  assert (H1 : length (calls (trace (state_of (step_of st ev))))
               <= length (calls (trace st))
                  + (if is_send ev then 1 else 0)).
  { destruct (handle_calls st ev) as [->|(-> & req & ->)].
    - lia.
    - rewrite length_app. simpl. lia. }
  assert (H2 : length (filter (fun ev => is_send ev = true) (ev :: evs))
               = (if is_send ev then 1 else 0)
                 + length (filter (fun ev => is_send ev = true) evs)).
  { destruct (is_send ev) eqn:E.
    - now rewrite filter_cons_True.
    - rewrite filter_cons_False by congruence. reflexivity. }
  rewrite H2. destruct (step_of st ev) as [st1|e st1]; simpl in H1.
  - specialize (IH st1). lia.
  - simpl. lia.
Qed.

End LoopInvariants.

(** ** Startup and restart *)

Section StartupMore.

Variable json_load : string -> decoded.
Variable json_dump : json -> string.



(** When the load gives the empty list, the history is primed and saved. *)
Lemma main_startup_empty (dsk : gmap string file_data) :
  load_or_init_history json_load dsk HISTORY_JSON_PATH = Return (JList []) ->
  main_startup json_load json_dump dsk
  = Started (State [Message "developer" initial_instructions] []
      (save_history json_dump dsk HISTORY_JSON_PATH
         [Message "developer" initial_instructions]) []).
Proof. intros H. unfold main_startup. now rewrite H. Qed.

(** X16: with no history file, or with one whose text is not valid JSON,
    the program starts with the developer message alone and writes that
    history to the history file, replacing what was there. *)
Theorem main_startup_primes (dsk : gmap string file_data) :
  dsk !! HISTORY_JSON_PATH = None
  \/ (exists text : string,
        dsk !! HISTORY_JSON_PATH = Some (Utf8 text)
        /\ json_load text = JSONDecodeError) ->
  exists st : state,
    main_startup json_load json_dump dsk = Started st
    /\ conversation_history st = [Message "developer" initial_instructions]
    /\ loaded_files st = [] /\ trace st = []
    /\ synced json_dump st.
Proof.
  intros H. eexists. split.
  - apply main_startup_empty. unfold load_or_init_history.
    destruct H as [->|(text & -> & ->)]; reflexivity.
  - repeat split. unfold synced, save_history. simpl.
    apply lookup_insert_eq.
Qed.


(** X18: the developer message that [-CLEAR_CONVO-] discards comes back at
    the next start of the program: the clear saves the empty history, and
    when the decoder reads that dump back as the empty list, the startup
    primes the history again. *)
Theorem main_startup_after_clear (st : state) :
  json_load (json_dump (json_of_history [])) = Decoded (JList []) ->
  exists st0 : state,
    main_startup json_load json_dump
      (disk (state_of (on_clear_convo json_dump st))) = Started st0
    /\ conversation_history st0
       = [Message "developer" initial_instructions].
Proof.
  intros Hcodec. eexists. split.
  - apply main_startup_empty. unfold load_or_init_history. simpl disk.
    unfold save_history. now rewrite lookup_insert_eq, Hcodec.
  - reflexivity.
Qed.

End StartupMore.

(** ** The export *)

Section ExportMore.

Variable str_upper : string -> string.

Lemma export_text_app_aux (h1 h2 : list message) :
  export_text str_upper (h1 ++ h2)
  = export_text str_upper h1 +:+ export_text str_upper h2.
Proof.
  induction h1 as [|m h1 IH]; [reflexivity |].
  simpl app. cbn [export_text]. rewrite IH.
  now rewrite PyStrFacts.append_assoc.
Qed.

(** X19: the export follows the history: the text for a history extended
    by messages is the text for the history followed by the text for those
    messages, so each of the three helpers adds one block at the end. *)
Theorem export_text_append (h added : list message) (c : string) :
  export_text str_upper (h ++ added)
  = export_text str_upper h +:+ export_text str_upper added
  /\ export_text str_upper (add_developer_message h c)
     = export_text str_upper h
       +:+ export_block str_upper (Message "developer" c)
  /\ export_text str_upper (add_user_message h c)
     = export_text str_upper h +:+ export_block str_upper (Message "user" c)
  /\ export_text str_upper (add_assistant_message h c)
     = export_text str_upper h
       +:+ export_block str_upper (Message "assistant" c).
Proof.
  split; [apply export_text_app_aux |].
  unfold add_developer_message, add_user_message, add_assistant_message.
  rewrite !export_text_app_aux. cbn [export_text].
  now rewrite !PyStrFacts.append_empty_r.
Qed.


End ExportMore.

(** ** The further properties on sample runs *)

(** Witness for X4: two blank lines. *)
Lemma chunk_text_blank_text_witness :
  chunk_text char_encode (" " +:+ PyStr.nl +:+ "  ") 0 = [].
Proof.
  apply (chunk_text_blank_text char_encode 0 (" " +:+ PyStr.nl +:+ "  ")).
  - reflexivity.
  - vm_compute. intros E. discriminate E.
Defined.

(** Witness for X5: three lines, two chunks, budget 3. *)
Lemma chunk_text_roundtrip_exact_witness :
  chunk_text char_encode ("ab" +:+ PyStr.nl +:+ PyStr.nl +:+ "cd") 3
    = ["ab" +:+ PyStr.nl; "cd"]
  /\ PyStr.join PyStr.nl
       (chunk_text char_encode ("ab" +:+ PyStr.nl +:+ PyStr.nl +:+ "cd") 3)
     = "ab" +:+ PyStr.nl +:+ PyStr.nl +:+ "cd".
Proof.
  split; [reflexivity |].
  apply (chunk_text_roundtrip_exact char_encode 3
           ("ab" +:+ PyStr.nl +:+ PyStr.nl +:+ "cd")).
  - repeat constructor; vm_compute; intros E; discriminate E.
  - reflexivity.
  - discriminate.
Defined.

(** Witness for X6: the two chunks of the sample text. *)
Lemma chunk_text_greedy_witness :
  Forall (fits_trimmed char_encode 3) (PyStr.split PyStr.NL sample_text)
  /\ greedy char_encode 3 (chunk_text char_encode sample_text 3).
Proof.
  assert (Hfit : Forall (fits_trimmed char_encode 3)
                        (PyStr.split PyStr.NL sample_text)).
  { repeat constructor; vm_compute; intros H; discriminate H. }
  split; [exact Hfit |].
  exact (chunk_text_greedy char_encode 3 sample_text Hfit).
Defined.

(** Witness for X7: the second of two chunks is part 2. *)
Lemma add_chunks_messages_witness :
  add_chunks id_basename "a.py" 1 ["x"; "y"]
    [Message "developer" initial_instructions] !! 2
  = Some (Message "user" ("[FILE: a.py, PART 2]" +:+ PyStr.nl +:+ "y")).
Proof.
  apply (proj2 (proj2 (add_chunks_messages id_basename "a.py" ["x"; "y"]
                         [Message "developer" initial_instructions]))
           1 "y").
  reflexivity.
Defined.

(** Witness for X8: the same file loaded twice, with Windows line ends on
    the disk. *)
Lemma ingest_files_messages_witness :
  read_text (<["w.py" := Utf8 ("a" +:+ String CR PyStr.nl +:+ "b")]> ∅) "w.py"
    = Return ("a" +:+ PyStr.nl +:+ "b")
  /\ [Message "user" ("[FILE: w.py, PART 1]" +:+ PyStr.nl
                       +:+ "a" +:+ PyStr.nl +:+ "b");
      Message "user" ("[FILE: w.py, PART 1]" +:+ PyStr.nl
                       +:+ "a" +:+ PyStr.nl +:+ "b")]
     = [] ++ concat (map (file_messages char_encode id_basename
                      (<["w.py" := Utf8 ("a" +:+ String CR PyStr.nl +:+ "b")]> ∅))
                   ["w.py"; "w.py"]).
Proof.
  split; [reflexivity |].
  assert (H : ingest_files char_encode id_basename
                (<["w.py" := Utf8 ("a" +:+ String CR PyStr.nl +:+ "b")]> ∅)
                ["w.py"; "w.py"] []
              = (Return
                   [Message "user" ("[FILE: w.py, PART 1]" +:+ PyStr.nl
                                    +:+ "a" +:+ PyStr.nl +:+ "b");
                    Message "user" ("[FILE: w.py, PART 1]" +:+ PyStr.nl
                                    +:+ "a" +:+ PyStr.nl +:+ "b")],
                 [Message "user" ("[FILE: w.py, PART 1]" +:+ PyStr.nl
                                  +:+ "a" +:+ PyStr.nl +:+ "b");
                  Message "user" ("[FILE: w.py, PART 1]" +:+ PyStr.nl
                                  +:+ "a" +:+ PyStr.nl +:+ "b")]))
    by (vm_compute; reflexivity).
  exact (proj1 (ingest_files_messages char_encode id_basename _ _ _ _ _ H)).
Defined.

(** Witness for X9: [a.py] selected, the prompt [" Hello "], the endpoint
    answering. *)
Lemma on_send_completion_success_witness :
  exists st' : state,
    on_send char_encode tiny_json_dump id_basename sample_state " Hello "
      endpoint_ok = Continue st'
    /\ conversation_history st'
       = [Message "developer" initial_instructions;
          Message "user" ("[FILE: a.py, PART 1]" +:+ PyStr.nl +:+ sample_text);
          Message "user" "Hello";
          Message "assistant" "Hi there"]
    /\ synced tiny_json_dump st'
    /\ loaded_files st' = []
    /\ trace st' = trace sample_state ++
         [WindowUpdate "-FILES-" "";
          CompletionCall (Request MODEL_NAME
            [Message "developer" initial_instructions;
             Message "user"
               ("[FILE: a.py, PART 1]" +:+ PyStr.nl +:+ sample_text);
             Message "user" "Hello"] 1);
          WindowUpdate "-RESPONSE-" "Hi there";
          WindowUpdate "-PROMPT-" ""].
Proof.
  apply (on_send_completion_success char_encode tiny_json_dump id_basename
           sample_state " Hello " endpoint_ok
           [Message "developer" initial_instructions;
            Message "user"
              ("[FILE: a.py, PART 1]" +:+ PyStr.nl +:+ sample_text)]
           [Message "developer" initial_instructions;
            Message "user"
              ("[FILE: a.py, PART 1]" +:+ PyStr.nl +:+ sample_text)]
           "Hi there"); reflexivity.
Defined.


(** Witness for X11. *)
Lemma handle_saves_changes_witness :
  synced tiny_json_dump
    (state_of (handle char_encode tiny_json_dump id_basename sample_state
                 (EvSend "Hello" endpoint_ok))).
Proof.
  apply (handle_saves_changes char_encode tiny_json_dump id_basename
           sample_state _ (EvSend "Hello" endpoint_ok)).
  - reflexivity.
  - simpl. discriminate.
Defined.


(** An export onto the history file itself replaces the dump. *)
Example export_over_history_file :
  disk (state_of (on_save_output upper_az started_state
                    (Some HISTORY_JSON_PATH) None)) !! HISTORY_JSON_PATH
  = Some (Utf8 ("DEVELOPER:" +:+ PyStr.nl +:+ initial_instructions
                +:+ PyStr.nl +:+ PyStr.nl)).
Proof. reflexivity. Qed.

(** Witness for X13: a send, a clear, another send. *)
Lemma run_keeps_developer_first_witness :
  developer_first
    (conversation_history
       (state_of (run char_encode tiny_json_dump id_basename sample_state
                    [EvSend "Hello" endpoint_ok; EvClearConvo;
                     EvSend "again" endpoint_down]))).
Proof.
  apply (run_keeps_developer_first char_encode tiny_json_dump id_basename).
  repeat constructor.
Defined.

(** Witness for X14: a picked string with a text file and a file that is
    not text; the run ends, with another exception. *)
Lemma run_never_misses_loaded_file_witness :
  run char_encode tiny_json_dump id_basename started_state
    [EvSelectFiles (PickedStr "a.py; logo.png"); EvSend "" endpoint_ok]
  = Uncaught (UnicodeDecodeError "logo.png")
      (State [Message "developer" initial_instructions;
              Message "user"
                ("[FILE: a.py, PART 1]" +:+ PyStr.nl +:+ sample_text)]
         ["a.py"; "logo.png"] (disk started_state)
         [WindowUpdate "-FILES-" ("a.py" +:+ PyStr.nl +:+ "logo.png")])
  /\ forall fp : string, UnicodeDecodeError "logo.png" <> FileNotFoundError fp.
Proof.
  assert (H : run char_encode tiny_json_dump id_basename started_state
                [EvSelectFiles (PickedStr "a.py; logo.png");
                 EvSend "" endpoint_ok]
              = Uncaught (UnicodeDecodeError "logo.png")
                  (State [Message "developer" initial_instructions;
                          Message "user"
                            ("[FILE: a.py, PART 1]" +:+ PyStr.nl
                             +:+ sample_text)]
                     ["a.py"; "logo.png"] (disk started_state)
                     [WindowUpdate "-FILES-"
                        ("a.py" +:+ PyStr.nl +:+ "logo.png")]))
    by (vm_compute; reflexivity).
  split; [exact H |].
  exact (run_never_misses_loaded_file char_encode tiny_json_dump id_basename
           _ started_state _ _ (List.Forall_nil _) H).
Defined.

(** Witness for X16: no history file on the sample disk. *)
Lemma main_startup_primes_witness :
  exists st : state,
    main_startup tiny_json_load tiny_json_dump sample_disk = Started st
    /\ conversation_history st = [Message "developer" initial_instructions]
    /\ loaded_files st = [] /\ trace st = []
    /\ synced tiny_json_dump st.
Proof.
  apply (main_startup_primes tiny_json_load tiny_json_dump sample_disk).
  left. reflexivity.
Defined.


(** Witness for X18. *)
Lemma main_startup_after_clear_witness :
  exists st0 : state,
    main_startup tiny_json_load tiny_json_dump
      (disk (state_of (on_clear_convo tiny_json_dump sample_state)))
    = Started st0
    /\ conversation_history st0
       = [Message "developer" initial_instructions].
Proof.
  apply (main_startup_after_clear tiny_json_load tiny_json_dump sample_state).
  reflexivity.
Defined.


(** Witness for C2: an indented line over the budget, then lines that fit,
    with an empty line between them and one at the end; budget 2, one token
    per character. *)
Lemma chunk_text_roundtrip_trimmed_witness :
  blank_gap_safe char_encode 2
    (PyStr.split PyStr.NL
       ("  abcdef" +:+ PyStr.nl +:+ "x" +:+ PyStr.nl +:+ PyStr.nl
        +:+ "y " +:+ PyStr.nl))
  /\ chunk_text char_encode
       ("  abcdef" +:+ PyStr.nl +:+ "x" +:+ PyStr.nl +:+ PyStr.nl
        +:+ "y " +:+ PyStr.nl) 2
     = ["  abcdef"; "x" +:+ PyStr.nl; "y " +:+ PyStr.nl]
  /\ PyStr.strip
       (PyStr.join PyStr.nl
          (chunk_text char_encode
             ("  abcdef" +:+ PyStr.nl +:+ "x" +:+ PyStr.nl +:+ PyStr.nl
              +:+ "y " +:+ PyStr.nl) 2))
     = PyStr.strip
         ("  abcdef" +:+ PyStr.nl +:+ "x" +:+ PyStr.nl +:+ PyStr.nl
          +:+ "y " +:+ PyStr.nl).
Proof.
  assert (Hsafe : blank_gap_safe char_encode 2
            (PyStr.split PyStr.NL
               ("  abcdef" +:+ PyStr.nl +:+ "x" +:+ PyStr.nl +:+ PyStr.nl
                +:+ "y " +:+ PyStr.nl))).
  { repeat split; intros _; left; vm_compute; intros E; discriminate E. }
  split; [exact Hsafe |]. split; [reflexivity |].
  exact (chunk_text_roundtrip_trimmed char_encode 2 _ Hsafe).
Defined.

(** Witness for X21: the chunk over the budget is the first line. *)
Lemma chunk_text_over_budget_is_line_witness :
  "  abcdef" ∈ PyStr.split PyStr.NL
                 ("  abcdef" +:+ PyStr.nl +:+ "x" +:+ PyStr.nl +:+ "y")
  /\ PyStr.contains PyStr.NL "  abcdef" = false.
Proof.
  apply (chunk_text_over_budget_is_line char_encode 2
           ("  abcdef" +:+ PyStr.nl +:+ "x" +:+ PyStr.nl +:+ "y")
           "  abcdef").
  - vm_compute. left.
  - vm_compute. intros E. apply E. reflexivity.
Defined.
